(** * Pro forma engine of the solar datacenter LCOE calculator

    A shallow embedding of [calculations.py]: [calculate_capex],
    [calculate_npv] and [calculate_pro_forma].

    Numbers.  The Python code computes on binary floating point; here every
    float is an exact rational ([Q], compared with [==]), so the results
    below are statements about the formulas the code evaluates, not about
    rounding errors of the host arithmetic.  What floating point adds on top
    (NaN cells, division by zero, the final rounding to two decimals) is
    modelled explicitly: a NaN cell is [None], a division whose divisor is
    zero raises, and [DataFrame.round] is rounding half to even on the exact
    value. *)

From Stdlib Require Import QArith ZArith List Bool Lia Lqa.
From Stdlib Require Import Qround Qpower Qfield Qabs String.
Import ListNotations.

Local Open Scope string_scope.
Local Open Scope Q_scope.

(** ** Exceptions *)

(** [ZeroDivisionError] and [KeyError] are the two exceptions the
    arithmetic and the label-based indexing of the source can raise.
    [InvalidScenario] is the domain error the specification names; no
    statement of the source raises it. *)
Inductive error : Set :=
| ZeroDivisionError
| KeyError
| InvalidScenario.

Inductive result (A : Type) : Type :=
| Ok (a : A)
| Raise (e : error).

Arguments Ok {A} a.
Arguments Raise {A} e.

Definition bind {A B : Type} (m : result A) (k : A -> result B) : result B :=
  match m with
  | Ok a => k a
  | Raise e => Raise e
  end.

Notation "x <- m ;; k" := (bind m (fun x => k))
  (at level 61, m at next level, right associativity).

(** ** Python scalar arithmetic *)

(** [x / y] on Python numbers. *)
Definition truediv (x y : Q) : result Q :=
  if Qeq_bool y 0 then Raise ZeroDivisionError else Ok (x / y).

(** [b ** e] with a float base and an [int] exponent: zero to a negative
    power raises. *)
Definition pow (b : Q) (e : Z) : result Q :=
  if Qeq_bool b 0 && (e <? 0)%Z then Raise ZeroDivisionError else Ok (b ^ e).

(** [range(lo, hi)]. *)
Definition range (lo hi : Z) : list Z :=
  map (fun i => (lo + Z.of_nat i)%Z) (seq 0 (Z.to_nat (hi - lo))).

(** ** calculate_capex *)

Definition _BESS_HRS_STORAGE : Q := 4.

(** The keys of the [inputs] dictionary that [calculate_capex] reads. *)
Record CapexInputs : Set := {
  in_solar_pv_capacity_mw : Q;
  in_bess_max_power_mw : Q;
  in_generator_capacity_mw : Q;
  in_datacenter_load_mw : Q;
  pv_modules : Q;
  pv_inverters : Q;
  pv_racking : Q;
  pv_balance_system : Q;
  pv_labor : Q;
  bess_units : Q;
  bess_balance_of_system : Q;
  bess_labor : Q;
  gensets : Q;
  gen_balance_of_system : Q;
  gen_labor : Q;
  si_microgrid : Q;
  si_controls : Q;
  si_labor : Q;
  soft_costs_general_conditions : Q;
  soft_costs_epc_overhead : Q;
  soft_costs_design_engineering : Q;
  soft_costs_permitting : Q;
  soft_costs_startup : Q;
  soft_costs_insurance : Q;
  soft_costs_taxes : Q
}.

(** The dictionary [calculate_capex] returns, in $M. *)
Record Capex : Set := {
  solar : Q;
  bess : Q;
  generator : Q;
  system_integration : Q;
  soft_costs : Q
}.

Module CapexDollars.

Definition solar_capex (i : CapexInputs) : Q :=
  in_solar_pv_capacity_mw i * 1000000 *
  (pv_modules i + pv_inverters i + pv_racking i + pv_balance_system i
   + pv_labor i).

Definition bess_system_mwh (i : CapexInputs) : Q :=
  in_bess_max_power_mw i * _BESS_HRS_STORAGE.

Definition bess_capex (i : CapexInputs) : Q :=
  bess_system_mwh i * 1000 *
  (bess_units i + bess_balance_of_system i + bess_labor i).

Definition generator_capex (i : CapexInputs) : Q :=
  in_generator_capacity_mw i * 1000 *
  (gensets i + gen_balance_of_system i + gen_labor i).

Definition system_integration_capex (i : CapexInputs) : Q :=
  in_datacenter_load_mw i * 1000 *
  (si_microgrid i + si_controls i + si_labor i).

Definition total_hard_costs (i : CapexInputs) : Q :=
  solar_capex i + bess_capex i + generator_capex i
  + system_integration_capex i.

Definition soft_pct_sum (i : CapexInputs) : Q :=
  soft_costs_general_conditions i + soft_costs_epc_overhead i
  + soft_costs_design_engineering i + soft_costs_permitting i
  + soft_costs_startup i + soft_costs_insurance i + soft_costs_taxes i.

Definition soft_costs (i : CapexInputs) : Q :=
  total_hard_costs i * soft_pct_sum i / 100.

End CapexDollars.

Definition calculate_capex (i : CapexInputs) : Capex :=
  {| solar := CapexDollars.solar_capex i / 1000000;
     bess := CapexDollars.bess_capex i / 1000000;
     generator := CapexDollars.generator_capex i / 1000000;
     system_integration := CapexDollars.system_integration_capex i / 1000000;
     soft_costs := CapexDollars.soft_costs i / 1000000 |}.

(** ** Series and data frames *)

(** A row label of the pro forma: an integer year, or the string ['NPV']. *)
Inductive label : Set :=
| Int (y : Z)
| Str (s : string).

Definition label_eqb (a b : label) : bool :=
  match a, b with
  | Int x, Int y => (x =? y)%Z
  | Str s, Str t => String.eqb s t
  | _, _ => false
  end.

Definition label_in (l : label) (ls : list label) : bool :=
  existsb (label_eqb l) ls.

Definition column_in (c : string) (cs : list string) : bool :=
  existsb (String.eqb c) cs.

(** A cell holds a float; [None] is NaN. *)
Definition Cell : Set := option Q.

(** A column of a frame, or any series aligned on the frame's index. *)
Definition Series : Type := label -> Cell.

(** NaN-propagating arithmetic of pandas and numpy. *)
Definition lift2 (f : Q -> Q -> Q) (a b : Cell) : Cell :=
  match a, b with
  | Some x, Some y => Some (f x y)
  | _, _ => None
  end.

Declare Scope cell_scope.
Delimit Scope cell_scope with cell.
Notation "a + b" := (lift2 Qplus a b) : cell_scope.
Notation "a - b" := (lift2 Qminus a b) : cell_scope.
Notation "a * b" := (lift2 Qmult a b) : cell_scope.
Notation "a / b" := (lift2 Qdiv a b) : cell_scope.

(** A Python scalar used where a cell is expected. *)
Definition num (q : Q) : Cell := Some q.

(** [Series.fillna(v)] on one cell. *)
Definition fillna (v : Q) (a : Cell) : Cell :=
  match a with
  | Some x => Some x
  | None => Some v
  end.

(** [Series.sum()]: NaN entries are skipped. *)
Definition sum_skipna (vs : list Cell) : Q :=
  fold_left (fun acc v => match v with Some x => acc + x | None => acc end)
            vs 0.

(** The frame: its row index, its columns in creation order, and its
    cells.  A cell outside [index] x [columns] is never read. *)
Record DataFrame : Type := {
  index : list label;
  columns : list string;
  cell : label -> string -> Cell
}.

(** [pd.DataFrame(index=idx)]. *)
Definition DataFrame_new (idx : list label) : DataFrame :=
  {| index := idx; columns := []; cell := fun _ _ => None |}.

Definition add_label (l : label) (ls : list label) : list label :=
  if label_in l ls then ls else ls ++ [l].

Definition add_column (c : string) (cs : list string) : list string :=
  if column_in c cs then cs else cs ++ [c].

(** [df.loc[l, c] = v] with a scalar row label: a missing row or column is
    appended (setting with enlargement). *)
Definition loc_set (df : DataFrame) (l : label) (c : string) (v : Cell)
  : DataFrame :=
  {| index := add_label l (index df);
     columns := add_column c (columns df);
     cell := fun l' c' =>
       if String.eqb c c' && label_eqb l l' then v else cell df l' c' |}.

(** [df.loc[ls, c] = v] with a list-like of row labels: every label must be
    in the index, else pandas raises [KeyError]. *)
Definition assign_labels (df : DataFrame) (ls : list label) (c : string)
  (v : Cell) : DataFrame :=
  {| index := index df;
     columns := add_column c (columns df);
     cell := fun l' c' =>
       if String.eqb c c' && label_in l' ls then v else cell df l' c' |}.

Definition loc_set_labels (df : DataFrame) (ls : list label) (c : string)
  (v : Cell) : result DataFrame :=
  if forallb (fun l => label_in l (index df)) ls
  then Ok (assign_labels df ls c v)
  else Raise KeyError.

(** [df.loc[mask, c] = s] with a boolean mask over the index, and with
    [mask] all true [df[c] = s]. *)
Definition loc_set_mask (df : DataFrame) (mask : label -> bool) (c : string)
  (s : Series) : DataFrame :=
  {| index := index df;
     columns := add_column c (columns df);
     cell := fun l' c' =>
       if String.eqb c c' && (mask l' && label_in l' (index df))
       then s l' else cell df l' c' |}.

Definition setitem (df : DataFrame) (c : string) (s : Series) : DataFrame :=
  loc_set_mask df (fun _ => true) c s.

(** [df.loc[mask, c]] and [df[c]] as a right-hand side: the column must
    exist. *)
Definition getitem (df : DataFrame) (c : string) : result Series :=
  if column_in c (columns df) then Ok (fun l => cell df l c)
  else Raise KeyError.

(** ** Rounding *)

(** Round half to even, the rounding of [numpy.rint]. *)
Definition rint (q : Q) : Z :=
  let f := Qfloor q in
  match Qcompare (q - inject_Z f) (1 # 2) with
  | Lt => f
  | Gt => (f + 1)%Z
  | Eq => if Z.even f then f else (f + 1)%Z
  end.

(** [round(q, 2)]. *)
Definition round2 (q : Q) : Q := inject_Z (rint (q * 100)) / 100.

(** [DataFrame.round(2)]. *)
Definition DataFrame_round2 (df : DataFrame) : DataFrame :=
  {| index := index df;
     columns := columns df;
     cell := fun l c => option_map round2 (cell df l c) |}.

(** ** calculate_npv *)

(** A series indexed by year, as [calculate_npv] receives it: the rows of
    a column whose label is an integer. *)
Definition year_indexed (ls : list label) (s : Series) : list (Z * Cell) :=
  flat_map (fun l => match l with
                     | Int y => [(y, s l)]
                     | Str _ => []
                     end) ls.

Definition calculate_npv (values : list (Z * Cell)) (discount_rate : Q)
  (construction_time_years : Z) : Q :=
  let values := map (fun tv => (fst tv, fillna 0 (snd tv))) values in
  fold_left Qplus
    (map (fun tv =>
            match snd tv with
            | Some v =>
                v / (1 + discount_rate / 100)
                      ^ (fst tv + construction_time_years)
            | None => 0
            end) values)
    0.

(** ** calculate_pro_forma *)

Definition _POWERFLOW_COLUMNS_TO_ASSIGN : list string :=
  [ "Solar Output - Net (MWh)";
    "BESS Net Output (MWh)";
    "Generator Output (MWh)";
    "Generator Fuel Input (MMBtu)";
    "Load Served (MWh)" ].

Definition _EXCLUDE_FROM_NPV : list string :=
  [ "Fuel Unit Cost"; "Solar Fixed O&M Rate"; "Battery Fixed O&M Rate";
    "Generator Fixed O&M Rate"; "Generator Variable O&M Rate";
    "BOS Fixed O&M Rate"; "Soft O&M Rate"; "LCOE";
    "Debt Outstanding, Yr Start"; "Depreciation Schedule" ].

Definition _CALCULATE_TOTALS : list string :=
  [ "Solar Output - Net (MWh)"; "BESS Net Output (MWh)";
    "Generator Output (MWh)"; "Generator Fuel Input (MMBtu)";
    "Load Served (MWh)" ].

(** One row of [simulation_data]: its ['Operating Year'] and its other
    columns by name. *)
Record SimRow : Type := {
  Operating_Year : Z;
  item : string -> Q
}.

(** The arguments of [calculate_pro_forma] other than [simulation_data]. *)
Record Scenario : Type := {
  datacenter_load_mw : Q;
  solar_pv_capacity_mw : Q;
  bess_max_power_mw : Q;
  generator_capacity_mw : Q;
  solar_capex : Q;
  bess_capex : Q;
  generator_capex : Q;
  system_integration_capex : Q;
  soft_costs_capex : Q;
  generator_om_fixed_dollar_per_kw : Q;
  generator_om_variable_dollar_per_kwh : Q;
  fuel_price_dollar_per_mmbtu : Q;
  fuel_escalator_pct : Q;
  solar_om_fixed_dollar_per_kw : Q;
  bess_om_fixed_dollar_per_kw : Q;
  bos_om_fixed_dollar_per_kw_load : Q;
  soft_om_pct : Q;
  om_escalator_pct : Q;
  lcoe_dollar_per_mwh : Q;
  depreciation_schedule : list Q;
  investment_tax_credit_pct : Q;
  cost_of_debt_pct : Q;
  leverage_pct : Q;
  debt_term_years : Z;
  cost_of_equity_pct : Q;
  combined_tax_rate_pct : Q;
  construction_time_years : Z
}.

(** [Series.unique()]: the distinct values in order of first appearance. *)
Fixpoint unique (l : list Z) : list Z :=
  match l with
  | [] => []
  | x :: r => x :: filter (fun y => negb (y =? x)%Z) (unique r)
  end.

(** The year index, [list(range(-1, 21))]. *)
Definition years : list Z := range (-1) 21.

(** The body of the loop that populates the operating years from the
    powerflow output.  [find] is [.iloc[0]] of the rows selected by the
    year; [year] comes from those rows, so one is always found. *)
Definition populate_year (sim : list SimRow) (proforma : DataFrame)
  (year : Z) : DataFrame :=
  match find (fun r => (Operating_Year r =? year)%Z) sim with
  | Some year_data =>
      let proforma :=
        loc_set proforma (Int year) "Operating Year" (num (inject_Z year)) in
      fold_left
        (fun pf column => loc_set pf (Int year) column
                                  (num (item year_data column)))
        _POWERFLOW_COLUMNS_TO_ASSIGN proforma
  | None => proforma
  end.

Definition populate (sim : list SimRow) (proforma : DataFrame) : DataFrame :=
  fold_left (populate_year sim) (unique (map Operating_Year sim)) proforma.

(** ** Key financial values *)

(** The fixed debt service payment,
    PMT = PV * r * (1 + r)^n / ((1 + r)^n - 1),
    as the expression of the source evaluates it. *)
Definition PMT (PV r : Q) (n : Z) : result Q :=
  g <- pow (1 + r) n ;;
  g' <- pow (1 + r) n ;;
  truediv (PV * r * g) (g' - 1).

Section KeyValues.
Variable a : Scenario.

Definition total_hard_capex : Q :=
  solar_capex a + bess_capex a + generator_capex a
  + system_integration_capex a.

Definition total_capex : Q := total_hard_capex + soft_costs_capex a.

Definition total_debt : Q := total_capex * (leverage_pct a / 100).

Definition interest_rate : Q := cost_of_debt_pct a / 100.

Definition fixed_debt_payment : result Q :=
  PMT total_debt interest_rate (debt_term_years a).

Definition renewable_proportion_of_hard_capex : result Q :=
  truediv (solar_capex a + bess_capex a) total_hard_capex.

Definition tax_credit_amount (renewable : Q) : Q :=
  total_capex * renewable * (investment_tax_credit_pct a / 100).

Definition amount_that_is_depreciable (renewable : Q) : Q :=
  total_capex - tax_credit_amount renewable / 2.

Definition construction_years : list label :=
  map Int (range (- construction_time_years a + 1) 1).

Definition capex_per_year : result Q :=
  truediv total_capex (inject_Z (construction_time_years a)).

End KeyValues.

(** ** The sections of calculate_pro_forma *)

Section ProForma.
Variable simulation_data : list SimRow.
Variable a : Scenario.

(** CONSTRUCTION PERIOD *)
Definition construction_period (capex_per_year : Q) (proforma : DataFrame)
  : result DataFrame :=
  proforma <- loc_set_labels proforma (construction_years a)
                "Capital Expenditure" (num (-1 * capex_per_year)) ;;
  proforma <- loc_set_labels proforma (construction_years a)
                "Debt Contribution"
                (num (capex_per_year * (leverage_pct a / 100))) ;;
  loc_set_labels proforma (construction_years a)
    "Equity Capex"
    (num (-1 * capex_per_year * (1 - leverage_pct a / 100))).

(** OPERATING PERIOD *)

(** [proforma.index > 0] *)
Definition operating_years (l : label) : bool :=
  match l with
  | Int y => (0 <? y)%Z
  | Str _ => false
  end.

(** [proforma.index[operating_years] - 1], at one row. *)
Definition operating_years_zero_indexed (l : label) : Z :=
  match l with
  | Int y => (y - 1)%Z
  | Str _ => 0%Z
  end.

Definition om_escalation (l : label) : Q :=
  (1 + om_escalator_pct a / 100) ^ operating_years_zero_indexed l.

Definition fuel_escalation (l : label) : Q :=
  (1 + fuel_escalator_pct a / 100) ^ operating_years_zero_indexed l.

(** Unit Rates *)
Definition unit_rates (proforma : DataFrame) : DataFrame :=
  let proforma := loc_set_mask proforma operating_years "Fuel Unit Cost"
    (fun l => num (-1 * fuel_price_dollar_per_mmbtu a * fuel_escalation l)) in
  let proforma := loc_set_mask proforma operating_years
    "Solar Fixed O&M Rate"
    (fun l => num (-1 * solar_om_fixed_dollar_per_kw a * om_escalation l)) in
  let proforma := loc_set_mask proforma operating_years
    "Battery Fixed O&M Rate"
    (fun l => num (-1 * bess_om_fixed_dollar_per_kw a * om_escalation l)) in
  let proforma := loc_set_mask proforma operating_years
    "Generator Fixed O&M Rate"
    (fun l => num (-1 * generator_om_fixed_dollar_per_kw a
                   * om_escalation l)) in
  let proforma := loc_set_mask proforma operating_years
    "Generator Variable O&M Rate"
    (fun l => num (-1 * generator_om_variable_dollar_per_kwh a
                   * om_escalation l)) in
  let proforma := loc_set_mask proforma operating_years
    "BOS Fixed O&M Rate"
    (fun l => num (-1 * bos_om_fixed_dollar_per_kw_load a
                   * om_escalation l)) in
  loc_set_mask proforma operating_years "Soft O&M Rate"
    (fun l => num (-1 * soft_om_pct a * om_escalation l)).

(** Costs and earnings of the operating years.  The three energy columns
    exist only when the powerflow loop ran at least once: reading them
    from a frame without them raises [KeyError]. *)
Definition costs_and_earnings (proforma : DataFrame) : result DataFrame :=
  let pf := proforma in
  let proforma := loc_set_mask pf operating_years "Fixed O&M Cost"
    (fun l =>
       ((cell pf l "Solar Fixed O&M Rate" * num (solar_pv_capacity_mw a)
           * num 1000
         + cell pf l "Battery Fixed O&M Rate" * num (bess_max_power_mw a)
           * num 1000
         + cell pf l "Generator Fixed O&M Rate"
           * num (generator_capacity_mw a) * num 1000
         + cell pf l "BOS Fixed O&M Rate" * num (datacenter_load_mw a)
           * num 1000) / num 1000000
        + cell pf l "Soft O&M Rate" / num 100
          * num (total_hard_capex a))%cell) in
  let pf := proforma in
  fuel_input <- getitem pf "Generator Fuel Input (MMBtu)" ;;
  let proforma := loc_set_mask pf operating_years "Fuel Cost"
    (fun l => (cell pf l "Fuel Unit Cost" * fuel_input l
               / num 1000000)%cell) in
  let pf := proforma in
  generator_output <- getitem pf "Generator Output (MWh)" ;;
  let proforma := loc_set_mask pf operating_years "Variable O&M Cost"
    (fun l => (cell pf l "Generator Variable O&M Rate"
               * generator_output l * num 1000 / num 1000000)%cell) in
  let pf := proforma in
  let proforma := loc_set_mask pf operating_years "Total Operating Costs"
    (fun l => (cell pf l "Fuel Cost" + cell pf l "Fixed O&M Cost"
               + cell pf l "Variable O&M Cost")%cell) in
  let proforma := loc_set_mask proforma operating_years "LCOE"
    (fun _ => num (lcoe_dollar_per_mwh a)) in
  let pf := proforma in
  load_served <- getitem pf "Load Served (MWh)" ;;
  let proforma := loc_set_mask pf operating_years "Revenue"
    (fun l => (num (lcoe_dollar_per_mwh a) * load_served l
               / num 1000000)%cell) in
  let pf := proforma in
  Ok (loc_set_mask pf operating_years "EBITDA"
        (fun l => (cell pf l "Revenue"
                   + cell pf l "Total Operating Costs")%cell)).

(** Debt, Tax, Capital: the body of the loop over the operating years. *)
Definition debt_tax_year (fixed_debt_payment depreciable : Q)
  (proforma : DataFrame) (year : Z) : DataFrame :=
  let y := Int year in
  let pf := proforma in
  let proforma := loc_set pf y "Interest Expense"
    (num (-1) * cell pf y "Debt Outstanding, Yr Start"
     * num (interest_rate a))%cell in
  let proforma := loc_set proforma y "Debt Service"
    (num (-1 * fixed_debt_payment)) in
  let pf := proforma in
  let proforma := loc_set pf y "Principal Payment"
    (cell pf y "Debt Service" - cell pf y "Interest Expense")%cell in
  let pf := proforma in
  let proforma :=
    if (year <? debt_term_years a)%Z then
      loc_set pf (Int (year + 1)) "Debt Outstanding, Yr Start"
        (cell pf y "Debt Outstanding, Yr Start"
         + cell pf y "Principal Payment")%cell
    else pf in
  let proforma := loc_set proforma y "Depreciation Schedule"
    (num (if (year <=? Z.of_nat (List.length (depreciation_schedule a)))%Z
          then nth (Z.to_nat (year - 1)) (depreciation_schedule a) 0
          else 0)) in
  let pf := proforma in
  let proforma := loc_set pf y "Depreciation (MACRS)"
    (num (-1) * (cell pf y "Depreciation Schedule" / num 100)
     * num depreciable)%cell in
  let pf := proforma in
  let proforma := loc_set pf y "Taxable Income"
    (cell pf y "EBITDA" + cell pf y "Depreciation (MACRS)"
     + cell pf y "Interest Expense")%cell in
  let pf := proforma in
  loc_set pf y "Interest Expense (Tax)" (cell pf y "Interest Expense").

Definition debt_tax_capital (fixed_debt_payment depreciable : Q)
  (proforma : DataFrame) : DataFrame :=
  fold_left (debt_tax_year fixed_debt_payment depreciable)
            (filter (fun y => (0 <? y)%Z) years) proforma.

(** Tax benefit and after-tax net equity cash flow, on whole columns. *)
Definition tax_and_cash_flow (proforma : DataFrame) : DataFrame :=
  let pf := proforma in
  let tax_on_income : Series := fun l =>
    (cell pf l "Taxable Income"
     * num (combined_tax_rate_pct a / 100))%cell in
  let proforma := setitem pf "Tax Benefit (Liability)"
    (fun l => (num (-1) * tax_on_income l
               + fillna 0 (cell pf l "Federal ITC"))%cell) in
  let pf := proforma in
  setitem pf "After-Tax Net Equity Cash Flow"
    (fun l => (fillna 0 (cell pf l "EBITDA")
               + fillna 0 (cell pf l "Debt Service")
               + fillna 0 (cell pf l "Tax Benefit (Liability)")
               + fillna 0 (cell pf l "Equity Capex"))%cell).

(** [proforma.index != 'NPV'] *)
Definition not_NPV (l : label) : bool := negb (label_eqb l (Str "NPV")).

(** The body of the loop that fills the ['NPV'] row. *)
Definition npv_column (proforma : DataFrame) (col : string) : DataFrame :=
  let dated := filter not_NPV (index proforma) in
  if column_in col _CALCULATE_TOTALS then
    loc_set proforma (Str "NPV") col
      (num (sum_skipna (map (fun l => cell proforma l col) dated)))
  else if column_in col _EXCLUDE_FROM_NPV then
    loc_set proforma (Str "NPV") col None
  else if negb (column_in col ["Operating Year"]) then
    let values :=
      year_indexed dated (fun l => fillna 0 (cell proforma l col)) in
    loc_set proforma (Str "NPV") col
      (num (calculate_npv values (cost_of_equity_pct a)
                          (construction_time_years a)))
  else proforma.

Definition npv_row (proforma : DataFrame) : DataFrame :=
  fold_left npv_column (columns proforma) proforma.

(** The table before the final [round(2)]. *)
Definition pro_forma_unrounded : result DataFrame :=
  let proforma := DataFrame_new (map Int years) in
  let proforma := populate simulation_data proforma in
  fixed_debt_payment <- fixed_debt_payment a ;;
  renewable <- renewable_proportion_of_hard_capex a ;;
  let proforma := loc_set proforma (Int 1) "Debt Outstanding, Yr Start"
                    (num (total_debt a)) in
  let proforma := loc_set proforma (Int 1) "Federal ITC"
                    (num (tax_credit_amount a renewable)) in
  capex_per_year <- capex_per_year a ;;
  proforma <- construction_period capex_per_year proforma ;;
  let proforma := unit_rates proforma in
  proforma <- costs_and_earnings proforma ;;
  let proforma :=
    debt_tax_capital fixed_debt_payment
      (amount_that_is_depreciable a renewable) proforma in
  let proforma := tax_and_cash_flow proforma in
  Ok (npv_row proforma).

Definition calculate_pro_forma : result DataFrame :=
  proforma <- pro_forma_unrounded ;;
  Ok (DataFrame_round2 proforma).

End ProForma.

(** ** Notions used in the statements *)

(** Scenarios on which every division and every label lookup of
    [calculate_pro_forma] succeeds: a positive cost of debt over a term of
    at least one year, a nonzero total hard CAPEX, a construction time whose
    years are rows of the hard-coded index, and a powerflow output with at
    least one row. *)
Record well_formed (sim : list SimRow) (a : Scenario) : Prop := {
  wf_cost_of_debt : 0 < cost_of_debt_pct a;
  wf_debt_term : (1 <= debt_term_years a)%Z;
  wf_hard_capex : ~ total_hard_capex a == 0;
  wf_construction : (1 <= construction_time_years a <= 2)%Z;
  wf_simulation : sim <> []
}.

(** The declining balance the debt loop computes, as a function of the
    principal [PV], the rate [r] and the fixed payment [p]:
    [debt_outstanding PV r p k] is 'Debt Outstanding, Yr Start' of operating
    year [k + 1], and [interest_expense], [principal_payment] are the
    'Interest Expense' and 'Principal Payment' of that year. *)
Definition interest_of (r balance : Q) : Q := -1 * balance * r.

Definition principal_of (r p balance : Q) : Q :=
  -1 * p - interest_of r balance.

Fixpoint debt_outstanding (PV r p : Q) (k : nat) : Q :=
  match k with
  | O => PV
  | S k' =>
      let d := debt_outstanding PV r p k' in
      d + principal_of r p d
  end.

Definition interest_expense (PV r p : Q) (k : nat) : Q :=
  interest_of r (debt_outstanding PV r p k).

Definition principal_payment (PV r p : Q) (k : nat) : Q :=
  principal_of r p (debt_outstanding PV r p k).

(** Sum of [f 0 .. f (n-1)]. *)
Fixpoint Qsum (f : nat -> Q) (n : nat) : Q :=
  match n with
  | O => 0
  | S k => Qsum f k + f k
  end.

(** The escalated unit rate of operating year [y], the expression every
    unit-rate column is assigned. *)
Definition unit_rate (base_rate escalator_pct : Q) (y : Z) : Q :=
  -1 * base_rate * (1 + escalator_pct / 100) ^ (y - 1).

(** The unit-rate columns with their base rate and their escalator. *)
Definition rate_columns (a : Scenario) : list (string * (Q * Q)) :=
  [ ("Fuel Unit Cost",
      (fuel_price_dollar_per_mmbtu a, fuel_escalator_pct a));
    ("Solar Fixed O&M Rate",
      (solar_om_fixed_dollar_per_kw a, om_escalator_pct a));
    ("Battery Fixed O&M Rate",
      (bess_om_fixed_dollar_per_kw a, om_escalator_pct a));
    ("Generator Fixed O&M Rate",
      (generator_om_fixed_dollar_per_kw a, om_escalator_pct a));
    ("Generator Variable O&M Rate",
      (generator_om_variable_dollar_per_kwh a, om_escalator_pct a));
    ("BOS Fixed O&M Rate",
      (bos_om_fixed_dollar_per_kw_load a, om_escalator_pct a));
    ("Soft O&M Rate", (soft_om_pct a, om_escalator_pct a)) ].

(** The entries of the ['NPV'] row, from the dated rows of a frame. *)
Definition dated_rows (df : DataFrame) : list label :=
  filter not_NPV (index df).

Definition column_total (df : DataFrame) (col : string) : Q :=
  sum_skipna (map (fun l => cell df l col) (dated_rows df)).

Definition column_npv (a : Scenario) (df : DataFrame) (col : string) : Q :=
  calculate_npv
    (year_indexed (dated_rows df) (fun l => fillna 0 (cell df l col)))
    (cost_of_equity_pct a) (construction_time_years a).

(** A powerflow output row whose energy columns all hold [v]. *)
Definition sim_row (year : Z) (v : Q) : SimRow :=
  {| Operating_Year := year; item := fun _ => v |}.

(** The powerflow output of two operating years. *)
Definition two_rows : list SimRow := [sim_row 1 10; sim_row 2 20].

(** A family of scenarios with round numbers: hard CAPEX 190 x [scale],
    soft costs 10, 70% leverage, debt over two years. *)
Definition scenario (scale cost_of_debt : Q) (construction_time : Z)
  : Scenario :=
  {| datacenter_load_mw := 100;
     solar_pv_capacity_mw := 150;
     bess_max_power_mw := 50;
     generator_capacity_mw := 100;
     solar_capex := 100 * scale;
     bess_capex := 50 * scale;
     generator_capex := 30 * scale;
     system_integration_capex := 10 * scale;
     soft_costs_capex := 10;
     generator_om_fixed_dollar_per_kw := 10;
     generator_om_variable_dollar_per_kwh := 1 # 40;
     fuel_price_dollar_per_mmbtu := 5;
     fuel_escalator_pct := 3;
     solar_om_fixed_dollar_per_kw := 11;
     bess_om_fixed_dollar_per_kw := 5 # 2;
     bos_om_fixed_dollar_per_kw_load := 6;
     soft_om_pct := 1 # 4;
     om_escalator_pct := 5 # 2;
     lcoe_dollar_per_mwh := 100;
     depreciation_schedule := [20; 32];
     investment_tax_credit_pct := 30;
     cost_of_debt_pct := cost_of_debt;
     leverage_pct := 70;
     debt_term_years := 2;
     cost_of_equity_pct := 11;
     combined_tax_rate_pct := 21;
     construction_time_years := construction_time |}.

(** Total CAPEX 200, debt at 10%, two construction years. *)
Definition example_scenario : Scenario := scenario 1 10 2.

(** The unit costs and percentages the input form starts with
    (src/inputs.py), for a load of 100 MW with 150 MW of solar, 50 MW of
    storage and 100 MW of generation. *)
Definition default_inputs : CapexInputs :=
  {| in_solar_pv_capacity_mw := 150;
     in_bess_max_power_mw := 50;
     in_generator_capacity_mw := 100;
     in_datacenter_load_mw := 100;
     pv_modules := 22 # 100;
     pv_inverters := 5 # 100;
     pv_racking := 18 # 100;
     pv_balance_system := 12 # 100;
     pv_labor := 20 # 100;
     bess_units := 200;
     bess_balance_of_system := 40;
     bess_labor := 20;
     gensets := 800;
     gen_balance_of_system := 200;
     gen_labor := 150;
     si_microgrid := 300;
     si_controls := 50;
     si_labor := 60;
     soft_costs_general_conditions := 1 # 2;
     soft_costs_epc_overhead := 5;
     soft_costs_design_engineering := 1 # 2;
     soft_costs_permitting := 5 # 100;
     soft_costs_startup := 1 # 4;
     soft_costs_insurance := 1 # 2;
     soft_costs_taxes := 5 |}.

(** ** The frames of a run *)

(** Frames whose rows are all dated: every label is an integer year, and no
    cell of a string-labelled row holds a value. *)
Definition dated (df : DataFrame) : Prop :=
  (forall l, In l (index df) -> exists y, l = Int y) /\
  (forall s c, cell df (Str s) c = None).

Definition powerflow_columns : list string :=
  "Operating Year" :: _POWERFLOW_COLUMNS_TO_ASSIGN.

(** The frame the construction period leaves when its years are rows. *)
Definition construction_frame (a : Scenario) (capex_per_year : Q) (df : DataFrame) : DataFrame :=
  assign_labels
    (assign_labels
       (assign_labels df (construction_years a)
          "Capital Expenditure" (num (-1 * capex_per_year)))
       (construction_years a) "Debt Contribution"
       (num (capex_per_year * (leverage_pct a / 100))))
    (construction_years a) "Equity Capex"
    (num (-1 * capex_per_year * (1 - leverage_pct a / 100))).

Definition construction_columns : list string :=
  ["Capital Expenditure"; "Debt Contribution"; "Equity Capex"].

Definition rate_column_names : list string :=
  ["Fuel Unit Cost"; "Solar Fixed O&M Rate"; "Battery Fixed O&M Rate";
   "Generator Fixed O&M Rate"; "Generator Variable O&M Rate";
   "BOS Fixed O&M Rate"; "Soft O&M Rate"].

Definition earnings_columns : list string :=
  ["Fixed O&M Cost"; "Fuel Cost"; "Variable O&M Cost";
   "Total Operating Costs"; "LCOE"; "Revenue"; "EBITDA"].

Definition debt_tax_columns : list string :=
  ["Interest Expense"; "Debt Service"; "Principal Payment";
   "Debt Outstanding, Yr Start"; "Depreciation Schedule";
   "Depreciation (MACRS)"; "Taxable Income"; "Interest Expense (Tax)"].

Definition cash_flow_columns : list string :=
  ["Tax Benefit (Liability)"; "After-Tax Net Equity Cash Flow"].

(** What the loop over the columns stores in the ['NPV'] row of column
    [col], computed on the frame [df]; [None] when it stores nothing. *)
Definition npv_entry (a : Scenario) (df : DataFrame) (col : string) : option Cell :=
  if column_in col _CALCULATE_TOTALS then Some (num (column_total df col))
  else if column_in col _EXCLUDE_FROM_NPV then Some None
  else if negb (column_in col ["Operating Year"])
       then Some (num (column_npv a df col))
       else None.

(** Two frames with the same dated rows. *)
Definition same_dated (df df' : DataFrame) : Prop :=
  dated_rows df' = dated_rows df /\
  forall l c, not_NPV l = true -> cell df' l c = cell df l c.

(** The values and the frames of a run on a well-formed scenario. *)
Definition payment (a : Scenario) : Q :=
  total_debt a * interest_rate a * (1 + interest_rate a) ^ debt_term_years a
  / ((1 + interest_rate a) ^ debt_term_years a - 1).

Definition renewable (a : Scenario) : Q :=
  (solar_capex a + bess_capex a) / total_hard_capex a.

Definition share (a : Scenario) : Q :=
  total_capex a / inject_Z (construction_time_years a).

(** The frame when the construction period starts. *)
Definition frame0 (sim : list SimRow) (a : Scenario) (ren : Q) : DataFrame :=
  loc_set
    (loc_set (populate (sim) (DataFrame_new (map Int years)))
       (Int 1) "Debt Outstanding, Yr Start" (num (total_debt a)))
    (Int 1) "Federal ITC" (num (tax_credit_amount a ren)).

(** The frame when the operating period starts. *)
Definition frame1 (sim : list SimRow) (a : Scenario) : DataFrame :=
  construction_frame a (share a) (frame0 sim a (renewable a)).

(** The table the NPV loop starts from, given the frame the costs and
    earnings left. *)
Definition before_npv (a : Scenario) (f2 : DataFrame) : DataFrame :=
  tax_and_cash_flow a
    (debt_tax_capital a (payment a)
       (amount_that_is_depreciable a (renewable a)) f2).

Definition late_columns : list string :=
  rate_column_names ++ earnings_columns ++ debt_tax_columns
  ++ cash_flow_columns.

(** The debt loop computes the declining balance. *)
Definition year_of (i : nat) : Z := Z.of_nat i + 1.

Definition other_than (z : Z) (y : Z) : bool := negb (y =? z)%Z.

Definition has_npv_entry (c : string) : bool :=
  column_in c _CALCULATE_TOTALS || column_in c _EXCLUDE_FROM_NPV
  || negb (column_in c ["Operating Year"]).

(** ** Notions for the further properties *)

(** The discounted value of one entry of a series. *)
Definition discounted (discount_rate : Q) (construction_time_years : Z)
  (tv : Z * Cell) : Q :=
  match snd tv with
  | Some v => v / (1 + discount_rate / 100) ^ (fst tv + construction_time_years)
  | None => 0
  end.

(** Inputs none of which is negative. *)
Definition nonnegative_inputs (i : CapexInputs) : Prop :=
  (0 <= in_solar_pv_capacity_mw i /\ 0 <= in_bess_max_power_mw i /\
   0 <= in_generator_capacity_mw i /\ 0 <= in_datacenter_load_mw i) /\
  (0 <= pv_modules i /\ 0 <= pv_inverters i /\ 0 <= pv_racking i /\
   0 <= pv_balance_system i /\ 0 <= pv_labor i) /\
  (0 <= bess_units i /\ 0 <= bess_balance_of_system i /\ 0 <= bess_labor i) /\
  (0 <= gensets i /\ 0 <= gen_balance_of_system i /\ 0 <= gen_labor i) /\
  (0 <= si_microgrid i /\ 0 <= si_controls i /\ 0 <= si_labor i) /\
  (0 <= soft_costs_general_conditions i /\ 0 <= soft_costs_epc_overhead i /\
   0 <= soft_costs_design_engineering i /\ 0 <= soft_costs_permitting i /\
   0 <= soft_costs_startup i /\ 0 <= soft_costs_insurance i /\
   0 <= soft_costs_taxes i).

(** The scenario [a] with another debt term. *)
Definition with_debt_term (n : Z) (a : Scenario) : Scenario :=
  {| datacenter_load_mw := datacenter_load_mw a;
     solar_pv_capacity_mw := solar_pv_capacity_mw a;
     bess_max_power_mw := bess_max_power_mw a;
     generator_capacity_mw := generator_capacity_mw a;
     solar_capex := solar_capex a;
     bess_capex := bess_capex a;
     generator_capex := generator_capex a;
     system_integration_capex := system_integration_capex a;
     soft_costs_capex := soft_costs_capex a;
     generator_om_fixed_dollar_per_kw := generator_om_fixed_dollar_per_kw a;
     generator_om_variable_dollar_per_kwh := generator_om_variable_dollar_per_kwh a;
     fuel_price_dollar_per_mmbtu := fuel_price_dollar_per_mmbtu a;
     fuel_escalator_pct := fuel_escalator_pct a;
     solar_om_fixed_dollar_per_kw := solar_om_fixed_dollar_per_kw a;
     bess_om_fixed_dollar_per_kw := bess_om_fixed_dollar_per_kw a;
     bos_om_fixed_dollar_per_kw_load := bos_om_fixed_dollar_per_kw_load a;
     soft_om_pct := soft_om_pct a;
     om_escalator_pct := om_escalator_pct a;
     lcoe_dollar_per_mwh := lcoe_dollar_per_mwh a;
     depreciation_schedule := depreciation_schedule a;
     investment_tax_credit_pct := investment_tax_credit_pct a;
     cost_of_debt_pct := cost_of_debt_pct a;
     leverage_pct := leverage_pct a;
     debt_term_years := n;
     cost_of_equity_pct := cost_of_equity_pct a;
     combined_tax_rate_pct := combined_tax_rate_pct a;
     construction_time_years := construction_time_years a |}.

(** The frame the pass of year [i + 1] starts from. *)
Definition before_year (a : Scenario) (p d : Q) (i : nat) (df : DataFrame) : DataFrame :=
  fold_left (debt_tax_year a p d) (map year_of (seq 0 i)) df.

(** The balance a pass finds in its own row: the declining balance within
    the debt term, nothing after it. *)
Definition opening_balance (a : Scenario) (p : Q) (i : nat) : Cell :=
  if (Z.of_nat i <? debt_term_years a)%Z
  then Some (debt_outstanding (total_debt a) (interest_rate a) p i)
  else None.

(** * Verification *)

(** ** Python arithmetic: when it returns and when it raises *)

Lemma Qeq_bool_false (x y : Q) : ~ x == y -> Qeq_bool x y = false.
Proof.
  intros H. destruct (Qeq_bool x y) eqn:E; [|reflexivity].
  apply Qeq_bool_eq in E. contradiction.
Qed.

Lemma truediv_ok (x y : Q) : ~ y == 0 -> truediv x y = Ok (x / y).
Proof. intros H. unfold truediv. now rewrite Qeq_bool_false. Qed.

Lemma truediv_zero (x y : Q) : y == 0 -> truediv x y = Raise ZeroDivisionError.
Proof. intros H. unfold truediv. now rewrite (Qeq_eq_bool _ _ H). Qed.

Lemma pow_ok (b : Q) (e : Z) : ~ b == 0 \/ (0 <= e)%Z -> pow b e = Ok (b ^ e).
Proof.
  intros [H|H]; unfold pow.
  - now rewrite Qeq_bool_false.
  - replace (e <? 0)%Z with false by lia. now rewrite andb_false_r.
Qed.

Lemma pow_raises (b : Q) (e : Z) (x : error) : pow b e = Raise x -> x = ZeroDivisionError.
Proof. unfold pow. destruct (_ && _); congruence. Qed.

Lemma truediv_raises (x y : Q) (e : error) : truediv x y = Raise e -> e = ZeroDivisionError.
Proof. unfold truediv. destruct (Qeq_bool y 0); congruence. Qed.

Lemma PMT_raises (PV r : Q) (n : Z) (e : error) : PMT PV r n = Raise e -> e = ZeroDivisionError.
Proof.
  unfold PMT. destruct (pow (1 + r) n) eqn:E; cbn.
  - apply truediv_raises.
  - intros H. inversion H; subst. eapply pow_raises; eauto.
Qed.

Lemma growth_gt_1 (r : Q) (n : Z) : 0 < r -> (1 <= n)%Z -> 1 < (1 + r) ^ n.
Proof. intros Hr Hn. apply Qpower_1_lt; [lra | lia]. Qed.

Lemma PMT_ok (PV r : Q) (n : Z) :
  0 < r -> (1 <= n)%Z ->
  PMT PV r n = Ok (PV * r * (1 + r) ^ n / ((1 + r) ^ n - 1)).
Proof.
  intros Hr Hn. unfold PMT.
  rewrite pow_ok by (left; lra). cbn.
  apply truediv_ok. pose proof (growth_gt_1 r n Hr Hn). lra.
Qed.

Lemma PMT_zero_rate (PV r : Q) (n : Z) : r == 0 -> PMT PV r n = Raise ZeroDivisionError.
Proof.
  intros Hr. unfold PMT.
  rewrite pow_ok by (left; lra). cbn.
  apply truediv_zero.
  assert (H : 1 + r == 1) by lra. rewrite H, Qpower_1. lra.
Qed.

(** ** Labels, columns and the assignments of a frame *)

Lemma label_eqb_eq (l l' : label) : label_eqb l l' = true <-> l = l'.
Proof.
  destruct l as [x|s], l' as [y|t]; cbn; split; intros H; try congruence.
  - apply Z.eqb_eq in H. now subst.
  - inversion H. apply Z.eqb_refl.
  - apply String.eqb_eq in H. now subst.
  - inversion H. apply String.eqb_refl.
Qed.

Lemma label_eqb_refl (l : label) : label_eqb l l = true.
Proof. now apply label_eqb_eq. Qed.

Lemma label_in_In (l : label) (ls : list label) : label_in l ls = true <-> In l ls.
Proof.
  unfold label_in. rewrite existsb_exists. split.
  - intros (x & Hx & E). apply label_eqb_eq in E. now subst.
  - intros H. exists l. split; [assumption | apply label_eqb_refl].
Qed.

Lemma label_in_false (l : label) (ls : list label) : label_in l ls = false <-> ~ In l ls.
Proof.
  rewrite <- label_in_In. destruct (label_in l ls); split; congruence.
Qed.

Lemma column_in_In (c : string) (cs : list string) : column_in c cs = true <-> In c cs.
Proof.
  unfold column_in. rewrite existsb_exists. split.
  - intros (x & Hx & E). apply String.eqb_eq in E. now subst.
  - intros H. exists c. split; [assumption | apply String.eqb_refl].
Qed.

Lemma add_label_incl (l : label) (ls : list label) : incl ls (add_label l ls).
Proof.
  unfold add_label. destruct (label_in l ls); [apply incl_refl | apply incl_appl, incl_refl].
Qed.

Lemma add_label_In (l l' : label) (ls : list label) :
  In l' (add_label l ls) <-> l' = l \/ In l' ls.
Proof.
  unfold add_label. destruct (label_in l ls) eqn:E.
  - apply label_in_In in E. split; [auto | intros [->|]; auto].
  - rewrite in_app_iff. cbn. intuition congruence.
Qed.

Lemma add_label_present (l : label) (ls : list label) : In l ls -> add_label l ls = ls.
Proof. intros H. unfold add_label. apply label_in_In in H. now rewrite H. Qed.

Lemma add_column_In (c c' : string) (cs : list string) :
  In c' (add_column c cs) <-> c' = c \/ In c' cs.
Proof.
  unfold add_column. destruct (column_in c cs) eqn:E.
  - apply column_in_In in E. split; [auto | intros [->|]; auto].
  - rewrite in_app_iff. cbn. intuition congruence.
Qed.

(** Reduces the reads of a frame built by assignments to named columns. *)
Ltac assignments :=
  cbn [cell index columns loc_set loc_set_mask assign_labels setitem
       DataFrame_new].

(** The same, deciding the comparisons of column names. *)
Ltac frame :=
  assignments; cbn [String.eqb Ascii.eqb Bool.eqb andb].

Lemma dated_new (ys : list Z) : dated (DataFrame_new (map Int ys)).
Proof.
  split; cbn; [|reflexivity].
  intros l H. apply in_map_iff in H. destruct H as (y & <- & _). now exists y.
Qed.

Lemma dated_loc_set (df : DataFrame) (y : Z) (c : string) (v : Cell) :
  dated df -> dated (loc_set df (Int y) c v).
Proof.
  intros [Hi Hc]. split; cbn.
  - intros l H. apply add_label_In in H. destruct H as [->|H]; [now exists y | auto].
  - intros s c'. rewrite andb_false_r. apply Hc.
Qed.

Lemma label_in_map_Int_Str (s : string) (ys : list Z) : label_in (Str s) (map Int ys) = false.
Proof.
  apply label_in_false. intros H. apply in_map_iff in H. now destruct H as (y & E & _).
Qed.

Lemma dated_assign_labels (df : DataFrame) (ys : list Z) (c : string) (v : Cell) :
  dated df -> dated (assign_labels df (map Int ys) c v).
Proof.
  intros [Hi Hc]. split; cbn; [assumption|].
  intros s c'. rewrite label_in_map_Int_Str, andb_false_r. apply Hc.
Qed.

Lemma dated_label_in_Str (df : DataFrame) (s : string) : dated df -> label_in (Str s) (index df) = false.
Proof.
  intros [Hi _]. apply label_in_false. intros H. apply Hi in H. now destruct H.
Qed.

Lemma dated_loc_set_mask (df : DataFrame) (mask : label -> bool) (c : string) (s : Series) :
  dated df -> dated (loc_set_mask df mask c s).
Proof.
  intros H. split; cbn; [apply H|].
  intros s' c'. rewrite (dated_label_in_Str df s' H), !andb_false_r. apply H.
Qed.

Lemma loc_set_labels_ok (df : DataFrame) (ls : list label) (c : string) (v : Cell) :
  (forall l, In l ls -> In l (index df)) ->
  loc_set_labels df ls c v = Ok (assign_labels df ls c v).
Proof.
  intros H. unfold loc_set_labels.
  replace (forallb _ ls) with true; [reflexivity|].
  symmetry. apply forallb_forall. intros l Hl. now apply label_in_In, H.
Qed.

Lemma loc_set_labels_missing (df : DataFrame) (ls : list label) (c : string) (v : Cell) (l : label) :
  In l ls -> ~ In l (index df) ->
  loc_set_labels df ls c v = Raise KeyError.
Proof.
  intros Hl Hn. unfold loc_set_labels.
  destruct (forallb _ ls) eqn:E; [|reflexivity].
  rewrite forallb_forall in E. apply E in Hl. apply label_in_In in Hl. contradiction.
Qed.

Lemma getitem_ok (df : DataFrame) (c : string) :
  In c (columns df) -> getitem df c = Ok (fun l => cell df l c).
Proof. intros H. unfold getitem. apply column_in_In in H. now rewrite H. Qed.

Lemma index_populate_year_incl sim df y : incl (index df) (index (populate_year sim df y)).
Proof.
  unfold populate_year. destruct (find _ sim); [|apply incl_refl].
  cbn [fold_left _POWERFLOW_COLUMNS_TO_ASSIGN]. frame.
  repeat (eapply incl_tran; [|apply add_label_incl]). apply incl_refl.
Qed.

Lemma dated_populate_year sim df y : dated df -> dated (populate_year sim df y).
Proof.
  intros H. unfold populate_year. destruct (find _ sim); [|assumption].
  cbn [fold_left _POWERFLOW_COLUMNS_TO_ASSIGN].
  repeat apply dated_loc_set. assumption.
Qed.

Lemma fold_left_invariant {A B : Type} (P : A -> Prop) (f : A -> B -> A) (l : list B) (x : A) :
  (forall x b, P x -> P (f x b)) -> P x -> P (fold_left f l x).
Proof.
  intros Hf. revert x. induction l as [|b l IH]; cbn; auto.
Qed.

Lemma dated_populate sim df : dated df -> dated (populate sim df).
Proof.
  unfold populate. apply fold_left_invariant. intros x b. apply dated_populate_year.
Qed.

Lemma index_populate_incl sim df : incl (index df) (index (populate sim df)).
Proof.
  unfold populate.
  apply (fold_left_invariant (fun x => incl (index df) (index x))).
  - intros x b H. eapply incl_tran; [exact H | apply index_populate_year_incl].
  - apply incl_refl.
Qed.

Lemma add_column_incl (c : string) (cs : list string) : incl cs (add_column c cs).
Proof.
  unfold add_column. destruct (column_in c cs); [apply incl_refl | apply incl_appl, incl_refl].
Qed.

Lemma add_column_present (c : string) (cs : list string) : In c cs -> add_column c cs = cs.
Proof. intros H. unfold add_column. apply column_in_In in H. now rewrite H. Qed.

Lemma columns_populate_year_incl sim df y : incl (columns df) (columns (populate_year sim df y)).
Proof.
  unfold populate_year. destruct (find _ sim); [|apply incl_refl].
  cbn [fold_left _POWERFLOW_COLUMNS_TO_ASSIGN]. frame.
  repeat (eapply incl_tran; [|apply add_column_incl]). apply incl_refl.
Qed.

Lemma columns_populate_year_found sim df y r :
  find (fun r => (Operating_Year r =? y)%Z) sim = Some r ->
  incl powerflow_columns (columns (populate_year sim df y)).
Proof.
  intros E. unfold populate_year. rewrite E.
  cbn [fold_left _POWERFLOW_COLUMNS_TO_ASSIGN]. frame.
  intros c Hc. rewrite !add_column_In.
  cbn in Hc. intuition auto.
Qed.

Lemma columns_populate_incl sim df : incl (columns df) (columns (populate sim df)).
Proof.
  unfold populate.
  apply (fold_left_invariant (fun x => incl (columns df) (columns x))).
  - intros x b H. eapply incl_tran; [exact H | apply columns_populate_year_incl].
  - apply incl_refl.
Qed.

Lemma columns_populate sim df :
  sim <> [] -> incl powerflow_columns (columns (populate sim df)).
Proof.
  destruct sim as [|r sim]; [congruence|]. intros _.
  unfold populate. cbn [map unique fold_left].
  set (df1 := populate_year (r :: sim) df (Operating_Year r)).
  apply (fold_left_invariant (fun x => incl powerflow_columns (columns x))).
  - intros x b H. eapply incl_tran; [exact H | apply columns_populate_year_incl].
  - apply columns_populate_year_found with (r := r). cbn. now rewrite Z.eqb_refl.
Qed.

Lemma index_populate sim df l :
  In l (index (populate sim df)) ->
  In l (index df) \/ exists r, In r sim /\ l = Int (Operating_Year r).
Proof.
  unfold populate.
  assert (G : forall ys x, (forall y, In y ys -> exists r, In r sim /\ y = Operating_Year r) ->
            In l (index (fold_left (populate_year sim) ys x)) ->
            In l (index x) \/ exists r, In r sim /\ l = Int (Operating_Year r)).
  { induction ys as [|y ys IH]; intros x Hys H; cbn in H; [now left|].
    apply IH in H; [|intros; apply Hys; now right].
    destruct H as [H|H]; [|now right].
    unfold populate_year in H. destruct (find _ sim) eqn:E; [|now left].
    cbn [fold_left _POWERFLOW_COLUMNS_TO_ASSIGN] in H. revert H. frame.
    rewrite !add_label_In. intros H.
    destruct (Hys y (or_introl eq_refl)) as (r & Hr & ->).
    intuition eauto. }
  apply G. intros y Hy.
  assert (U : forall l0 y0, In y0 (unique l0) -> In y0 l0).
  { induction l0 as [|z l0 IH]; cbn; [tauto|].
    intros y0 [->|H]; [now left|]. apply filter_In in H. right. now apply IH. }
  apply U in Hy. apply in_map_iff in Hy. destruct Hy as (r & <- & Hr). eauto.
Qed.

(** Proves that a column outside a list differs from the columns an
    assignment names, and discards those assignments. *)
Ltac other_column H :=
  repeat match goal with
  | |- context [String.eqb ?x ?c] =>
      let E := fresh "E" in
      assert (E : String.eqb x c = false)
        by (apply String.eqb_neq; intros Ec; apply H; rewrite <- Ec;
            apply column_in_In; reflexivity);
      rewrite E; clear E; cbn [andb]
  end.

Lemma construction_period_ok (a : Scenario) (cpy : Q) (df : DataFrame) :
  (forall l, In l (construction_years a) -> In l (index df)) ->
  construction_period a cpy df = Ok (construction_frame a cpy df).
Proof.
  intros H. unfold construction_period, construction_frame.
  rewrite loc_set_labels_ok by assumption. cbn [bind].
  rewrite loc_set_labels_ok by assumption. cbn [bind].
  now rewrite loc_set_labels_ok by assumption.
Qed.

Lemma construction_period_missing (a : Scenario) (cpy : Q) (df : DataFrame) (l : label) :
  In l (construction_years a) -> ~ In l (index df) ->
  construction_period a cpy df = Raise KeyError.
Proof.
  intros H1 H2. unfold construction_period.
  now rewrite (loc_set_labels_missing df _ _ _ l).
Qed.

Lemma construction_frame_other (a : Scenario) (cpy : Q) (df : DataFrame) (l : label) (c : string) :
  ~ In c construction_columns ->
  cell (construction_frame a cpy df) l c = cell df l c.
Proof.
  intros H. unfold construction_frame. assignments. now other_column H.
Qed.

Lemma dated_construction_frame (a : Scenario) (cpy : Q) (df : DataFrame) :
  dated df -> dated (construction_frame a cpy df).
Proof.
  intros H. unfold construction_frame, construction_years.
  now repeat apply dated_assign_labels.
Qed.

Lemma columns_construction_frame (a : Scenario) (cpy : Q) (df : DataFrame) :
  incl (columns df) (columns (construction_frame a cpy df)).
Proof.
  unfold construction_frame. frame.
  repeat (eapply incl_tran; [|apply add_column_incl]). apply incl_refl.
Qed.

Lemma unit_rates_other (a : Scenario) (df : DataFrame) (l : label) (c : string) :
  ~ In c rate_column_names -> cell (unit_rates a df) l c = cell df l c.
Proof.
  intros H. unfold unit_rates. assignments. now other_column H.
Qed.

Lemma dated_unit_rates (a : Scenario) (df : DataFrame) : dated df -> dated (unit_rates a df).
Proof. intros H. unfold unit_rates. now repeat apply dated_loc_set_mask. Qed.

Lemma columns_unit_rates (a : Scenario) (df : DataFrame) :
  incl (columns df) (columns (unit_rates a df)).
Proof.
  unfold unit_rates. frame.
  repeat (eapply incl_tran; [|apply add_column_incl]). apply incl_refl.
Qed.

Lemma costs_and_earnings_ok (a : Scenario) (df : DataFrame) :
  incl powerflow_columns (columns df) ->
  exists df',
    costs_and_earnings a df = Ok df' /\
    index df' = index df /\
    incl (columns df) (columns df') /\
    (dated df -> dated df') /\
    (forall l c, ~ In c earnings_columns -> cell df' l c = cell df l c).
Proof.
  intros Hc. unfold costs_and_earnings.
  assert (P : forall c, In c powerflow_columns ->
                forall cs, incl (columns df) cs -> In c cs) by auto.
  rewrite getitem_ok
    by (apply (P "Generator Fuel Input (MMBtu)");
        [cbn; tauto | frame; repeat (eapply incl_tran; [|apply add_column_incl]); apply incl_refl]).
  cbn [bind].
  rewrite getitem_ok
    by (apply (P "Generator Output (MWh)");
        [cbn; tauto | frame; repeat (eapply incl_tran; [|apply add_column_incl]); apply incl_refl]).
  cbn [bind].
  rewrite getitem_ok
    by (apply (P "Load Served (MWh)");
        [cbn; tauto | frame; repeat (eapply incl_tran; [|apply add_column_incl]); apply incl_refl]).
  cbn [bind].
  eexists. split; [reflexivity|]. split; [reflexivity|]. split; [|split].
  - frame. repeat (eapply incl_tran; [|apply add_column_incl]). apply incl_refl.
  - intros H. now repeat apply dated_loc_set_mask.
  - intros l c H. assignments. now other_column H.
Qed.

Lemma debt_tax_year_other (a : Scenario) (p d : Q) (df : DataFrame) (y : Z) (l : label) (c : string) :
  ~ In c debt_tax_columns ->
  cell (debt_tax_year a p d df y) l c = cell df l c.
Proof.
  intros H. unfold debt_tax_year.
  destruct (y <? debt_term_years a)%Z; assignments; now other_column H.
Qed.

Lemma dated_debt_tax_year (a : Scenario) (p d : Q) (df : DataFrame) (y : Z) :
  dated df -> dated (debt_tax_year a p d df y).
Proof.
  intros H. unfold debt_tax_year.
  destruct (y <? debt_term_years a)%Z; now repeat apply dated_loc_set.
Qed.

Lemma index_debt_tax_year (a : Scenario) (p d : Q) (df : DataFrame) (y : Z) :
  incl (index df) (index (debt_tax_year a p d df y)).
Proof.
  unfold debt_tax_year.
  destruct (y <? debt_term_years a)%Z; assignments;
    repeat (eapply incl_tran; [|apply add_label_incl]); apply incl_refl.
Qed.

Lemma columns_debt_tax_year (a : Scenario) (p d : Q) (df : DataFrame) (y : Z) :
  incl (columns df) (columns (debt_tax_year a p d df y)).
Proof.
  unfold debt_tax_year.
  destruct (y <? debt_term_years a)%Z; assignments;
    repeat (eapply incl_tran; [|apply add_column_incl]); apply incl_refl.
Qed.

Lemma debt_tax_capital_other (a : Scenario) (p d : Q) (df : DataFrame) (l : label) (c : string) :
  ~ In c debt_tax_columns ->
  cell (debt_tax_capital a p d df) l c = cell df l c.
Proof.
  intros H. unfold debt_tax_capital.
  generalize (filter (fun y => (0 <? y)%Z) years). intros ys. revert df.
  induction ys as [|y ys IH]; intros df; cbn [fold_left]; [reflexivity|].
  rewrite IH. now apply debt_tax_year_other.
Qed.

Lemma dated_debt_tax_capital (a : Scenario) (p d : Q) (df : DataFrame) :
  dated df -> dated (debt_tax_capital a p d df).
Proof.
  unfold debt_tax_capital. apply fold_left_invariant.
  intros x b. apply dated_debt_tax_year.
Qed.

Lemma index_debt_tax_capital (a : Scenario) (p d : Q) (df : DataFrame) :
  incl (index df) (index (debt_tax_capital a p d df)).
Proof.
  unfold debt_tax_capital.
  apply (fold_left_invariant (fun x => incl (index df) (index x))).
  - intros x b H. eapply incl_tran; [exact H | apply index_debt_tax_year].
  - apply incl_refl.
Qed.

Lemma columns_debt_tax_capital (a : Scenario) (p d : Q) (df : DataFrame) :
  incl (columns df) (columns (debt_tax_capital a p d df)).
Proof.
  unfold debt_tax_capital.
  apply (fold_left_invariant (fun x => incl (columns df) (columns x))).
  - intros x b H. eapply incl_tran; [exact H | apply columns_debt_tax_year].
  - apply incl_refl.
Qed.

Lemma tax_and_cash_flow_other (a : Scenario) (df : DataFrame) (l : label) (c : string) :
  ~ In c cash_flow_columns ->
  cell (tax_and_cash_flow a df) l c = cell df l c.
Proof.
  intros H. unfold tax_and_cash_flow. assignments. now other_column H.
Qed.

Lemma dated_tax_and_cash_flow (a : Scenario) (df : DataFrame) :
  dated df -> dated (tax_and_cash_flow a df).
Proof.
  intros H. unfold tax_and_cash_flow, setitem. now repeat apply dated_loc_set_mask.
Qed.

Lemma columns_tax_and_cash_flow (a : Scenario) (df : DataFrame) :
  incl (columns df) (columns (tax_and_cash_flow a df)).
Proof.
  unfold tax_and_cash_flow. assignments.
  repeat (eapply incl_tran; [|apply add_column_incl]). apply incl_refl.
Qed.

Lemma npv_column_entry (a : Scenario) (df : DataFrame) (col : string) :
  npv_column a df col =
  match npv_entry a df col with
  | Some v => loc_set df (Str "NPV") col v
  | None => df
  end.
Proof.
  unfold npv_column, npv_entry.
  destruct (column_in col _CALCULATE_TOTALS); [reflexivity|].
  destruct (column_in col _EXCLUDE_FROM_NPV); [reflexivity|].
  destruct (negb _); reflexivity.
Qed.

Lemma not_NPV_label (l : label) : not_NPV l = true -> label_eqb (Str "NPV") l = false.
Proof.
  unfold not_NPV. intros H. apply negb_true_iff in H.
  destruct (label_eqb (Str "NPV") l) eqn:E; [|reflexivity].
  apply label_eqb_eq in E. subst l. now rewrite label_eqb_refl in H.
Qed.

Lemma dated_rows_add_NPV (ls : list label) :
  filter not_NPV (add_label (Str "NPV") ls) = filter not_NPV ls.
Proof.
  unfold add_label. destruct (label_in _ ls); [reflexivity|].
  rewrite filter_app. cbn. apply app_nil_r.
Qed.

Lemma same_dated_refl (df : DataFrame) : same_dated df df.
Proof. now split. Qed.

Lemma column_total_same (df df' : DataFrame) (c : string) :
  same_dated df df' -> column_total df' c = column_total df c.
Proof.
  intros [Hr Hc]. unfold column_total. rewrite Hr. f_equal.
  apply map_ext_in. intros l Hl. apply Hc.
  unfold dated_rows in Hl. now apply filter_In in Hl.
Qed.

Lemma year_indexed_ext (ls : list label) (s s' : Series) :
  (forall l, In l ls -> s l = s' l) -> year_indexed ls s = year_indexed ls s'.
Proof.
  intros H. unfold year_indexed. induction ls as [|l ls IH]; [reflexivity|].
  cbn [flat_map]. rewrite IH by (intros; apply H; now right).
  destruct l; [|reflexivity]. now rewrite H by now left.
Qed.

Lemma column_npv_same (a : Scenario) (df df' : DataFrame) (c : string) :
  same_dated df df' -> column_npv a df' c = column_npv a df c.
Proof.
  intros [Hr Hc]. unfold column_npv. rewrite Hr. f_equal.
  apply year_indexed_ext. intros l Hl. f_equal. apply Hc.
  unfold dated_rows in Hl. now apply filter_In in Hl.
Qed.

Lemma npv_entry_same (a : Scenario) (df df' : DataFrame) (c : string) :
  same_dated df df' -> npv_entry a df' c = npv_entry a df c.
Proof.
  intros H. unfold npv_entry.
  now rewrite (column_total_same df df' c H), (column_npv_same a df df' c H).
Qed.

Lemma same_dated_npv_column (a : Scenario) (df df' : DataFrame) (col : string) :
  same_dated df df' -> same_dated df (npv_column a df' col).
Proof.
  intros [Hr Hc]. rewrite npv_column_entry.
  destruct (npv_entry a df' col); [|now split].
  split.
  - unfold dated_rows in *. assignments. now rewrite dated_rows_add_NPV.
  - intros l c' Hl. assignments. rewrite (not_NPV_label l Hl), andb_false_r. now apply Hc.
Qed.

Lemma npv_fold_same (a : Scenario) (df : DataFrame) (cs : list string) (df' : DataFrame) :
  same_dated df df' -> same_dated df (fold_left (npv_column a) cs df').
Proof.
  revert df'. induction cs as [|c cs IH]; intros df' H; cbn [fold_left]; [assumption|].
  apply IH. now apply same_dated_npv_column.
Qed.

Lemma npv_column_cell (a : Scenario) (df df' : DataFrame) (c0 c : string) :
  same_dated df df' ->
  cell (npv_column a df' c0) (Str "NPV") c =
  if String.eqb c0 c
  then match npv_entry a df c with
       | Some v => v
       | None => cell df' (Str "NPV") c
       end
  else cell df' (Str "NPV") c.
Proof.
  intros H. rewrite npv_column_entry, (npv_entry_same a df df' c0 H).
  destruct (String.eqb c0 c) eqn:E.
  - apply String.eqb_eq in E. subst c0.
    destruct (npv_entry a df c); [|reflexivity].
    assignments. now rewrite String.eqb_refl.
  - destruct (npv_entry a df c0); [|reflexivity].
    assignments. now rewrite E.
Qed.

Lemma npv_fold_entry (a : Scenario) (df : DataFrame) (cs : list string) (df' : DataFrame) (c : string) :
  same_dated df df' ->
  cell (fold_left (npv_column a) cs df') (Str "NPV") c =
  if column_in c cs
  then match npv_entry a df c with
       | Some v => v
       | None => cell df' (Str "NPV") c
       end
  else cell df' (Str "NPV") c.
Proof.
  revert df'. induction cs as [|c0 cs IH]; intros df' H; cbn [fold_left]; [reflexivity|].
  rewrite IH by now apply same_dated_npv_column.
  rewrite (npv_column_cell a df df' c0 c H).
  cbn [column_in existsb]. fold (column_in c cs).
  rewrite (String.eqb_sym c c0).
  destruct (String.eqb c0 c), (column_in c cs), (npv_entry a df c); reflexivity.
Qed.

Lemma columns_npv_fold (a : Scenario) (cs : list string) (df : DataFrame) :
  incl cs (columns df) -> columns (fold_left (npv_column a) cs df) = columns df.
Proof.
  revert df. induction cs as [|c cs IH]; intros df H; cbn [fold_left]; [reflexivity|].
  assert (E : columns (npv_column a df c) = columns df).
  { rewrite npv_column_entry. destruct (npv_entry a df c); [|reflexivity].
    assignments. apply add_column_present, H. now left. }
  rewrite IH; [assumption|]. rewrite E. intros x Hx. apply H. now right.
Qed.

Lemma index_npv_fold (a : Scenario) (cs : list string) (df : DataFrame) :
  incl (index df) (index (fold_left (npv_column a) cs df)).
Proof.
  apply (fold_left_invariant (fun x => incl (index df) (index x))).
  - intros x b H. eapply incl_tran; [exact H|].
    rewrite npv_column_entry. destruct (npv_entry a x b); [|apply incl_refl].
    assignments. apply add_label_incl.
  - apply incl_refl.
Qed.

Lemma interest_rate_pos (a : Scenario) : 0 < cost_of_debt_pct a -> 0 < interest_rate a.
Proof.
  intros H. unfold interest_rate. apply Qlt_shift_div_l; lra.
Qed.

Lemma fixed_debt_payment_ok (a : Scenario) :
  0 < cost_of_debt_pct a -> (1 <= debt_term_years a)%Z ->
  fixed_debt_payment a = Ok (payment a).
Proof.
  intros Hr Hn. unfold fixed_debt_payment, payment.
  apply PMT_ok; [now apply interest_rate_pos | assumption].
Qed.

Lemma inject_Z_nonzero (n : Z) : n <> 0%Z -> ~ inject_Z n == 0.
Proof. intros H E. apply H. unfold Qeq in E. cbn in E. lia. Qed.

Lemma index_frame0 (sim : list SimRow) (a : Scenario) (ren : Q) : incl (map Int years) (index (frame0 sim a ren)).
Proof.
  unfold frame0. assignments.
  repeat (eapply incl_tran; [|apply add_label_incl]).
  apply (index_populate_incl _ (DataFrame_new (map Int years))).
Qed.

Lemma In_years (y : Z) : In (Int y) (map Int years) <-> (-1 <= y <= 20)%Z.
Proof.
  rewrite in_map_iff. unfold years, range. split.
  - intros (x & E & H). inversion E; subst x.
    apply in_map_iff in H. destruct H as (i & <- & Hi). apply in_seq in Hi. cbn in Hi. lia.
  - intros H. exists y. split; [reflexivity|].
    apply in_map_iff. exists (Z.to_nat (y + 1)). split; [lia|]. apply in_seq. cbn. lia.
Qed.

Lemma In_construction_years (a : Scenario) (l : label) :
  In l (construction_years a) <->
  exists y, l = Int y /\ (- construction_time_years a + 1 <= y <= 0)%Z.
Proof.
  unfold construction_years, range. rewrite in_map_iff. split.
  - intros (y & <- & H). exists y. split; [reflexivity|].
    apply in_map_iff in H. destruct H as (i & <- & Hi). apply in_seq in Hi. lia.
  - intros (y & -> & H). exists y. split; [reflexivity|].
    apply in_map_iff. exists (Z.to_nat (y - (- construction_time_years a + 1))).
    split; [lia|]. apply in_seq. lia.
Qed.

Lemma dated_frame0 (sim : list SimRow) (a : Scenario) (ren : Q) : dated (frame0 sim a ren).
Proof.
  unfold frame0. repeat apply dated_loc_set. apply dated_populate, dated_new.
Qed.

Lemma columns_frame0 (sim : list SimRow) (a : Scenario) (ren : Q) :
  sim <> [] -> incl powerflow_columns (columns (frame0 sim a ren)).
Proof.
  intros H. unfold frame0. assignments.
  repeat (eapply incl_tran; [|apply add_column_incl]).
  now apply columns_populate.
Qed.

Lemma pro_forma_unrounded_ok (sim : list SimRow) (a : Scenario) :
  well_formed sim a ->
  exists f2,
    costs_and_earnings a (unit_rates a (frame1 sim a)) = Ok f2 /\
    index f2 = index (frame0 sim a (renewable a)) /\
    incl powerflow_columns (columns f2) /\
    dated f2 /\
    (forall l c, ~ In c earnings_columns ->
                 cell f2 l c = cell (unit_rates a (frame1 sim a)) l c) /\
    pro_forma_unrounded sim a = Ok (npv_row a (before_npv a f2)).
Proof.
  intros [Hr Hn Hh Hc Hs].
  assert (Hcols : incl powerflow_columns (columns (unit_rates a (frame1 sim a)))).
  { eapply incl_tran; [|apply columns_unit_rates].
    eapply incl_tran; [|apply columns_construction_frame].
    now apply columns_frame0. }
  destruct (costs_and_earnings_ok a _ Hcols) as (f2 & E & Hi & Hc2 & Hd & Hf).
  exists f2. split; [exact E|]. split; [exact Hi|]. split; [|split; [|split; [exact Hf|]]].
  - eapply incl_tran; [exact Hcols | exact Hc2].
  - apply Hd, dated_unit_rates, dated_construction_frame, dated_frame0.
  - unfold pro_forma_unrounded.
    rewrite (fixed_debt_payment_ok a Hr Hn). cbn [bind].
    unfold renewable_proportion_of_hard_capex.
    rewrite (truediv_ok _ _ Hh). cbn [bind].
    unfold capex_per_year.
    rewrite truediv_ok by (apply inject_Z_nonzero; lia). cbn [bind].
    fold (renewable a). fold (share a). fold (frame0 sim a (renewable a)).
    rewrite construction_period_ok.
    + cbn [bind]. fold (frame1 sim a). rewrite E. cbn [bind]. reflexivity.
    + intros l Hl. apply index_frame0. apply In_construction_years in Hl.
      destruct Hl as (y & -> & Hy). apply In_years. lia.
Qed.

Lemma npv_row_dated (a : Scenario) (df : DataFrame) (l : label) (c : string) :
  not_NPV l = true -> cell (npv_row a df) l c = cell df l c.
Proof.
  intros H. unfold npv_row.
  now apply (npv_fold_same a df (columns df) df (same_dated_refl df)).
Qed.

Lemma before_npv_other (a : Scenario) (f2 : DataFrame) (l : label) (c : string) :
  ~ In c debt_tax_columns -> ~ In c cash_flow_columns ->
  cell (before_npv a f2) l c = cell f2 l c.
Proof.
  intros H1 H2. unfold before_npv.
  rewrite tax_and_cash_flow_other by assumption.
  now apply debt_tax_capital_other.
Qed.

Section Run.
Variable sim : list SimRow.
Variable a : Scenario.
Variable f2 : DataFrame.
Hypothesis f2_frame :
  forall l c, ~ In c earnings_columns ->
              cell f2 l c = cell (unit_rates a (frame1 sim a)) l c.

(** A column no later section assigns keeps, in the dated rows of the
    table, the value it had when the operating period started. *)
Lemma unrounded_early_cell (y : Z) (c : string) :
  ~ In c late_columns ->
  cell (npv_row a (before_npv a f2)) (Int y) c
  = cell (frame1 sim a) (Int y) c.
Proof.
  unfold late_columns. rewrite !in_app_iff. intros H.
  rewrite npv_row_dated by reflexivity.
  rewrite before_npv_other by tauto.
  rewrite f2_frame by tauto.
  apply unit_rates_other. tauto.
Qed.
End Run.

Lemma label_in_construction_years (a : Scenario) (y : Z) :
  (- construction_time_years a + 1 <= y <= 0)%Z ->
  label_in (Int y) (construction_years a) = true.
Proof.
  intros H. apply label_in_In, In_construction_years. now exists y.
Qed.

Lemma construction_cells (sim : list SimRow) (a : Scenario) :
  well_formed sim a ->
  exists u,
    pro_forma_unrounded sim a = Ok u /\
    forall y, (- construction_time_years a + 1 <= y <= 0)%Z ->
      cell u (Int y) "Capital Expenditure" = Some (-1 * share a) /\
      cell u (Int y) "Debt Contribution"
        = Some (share a * (leverage_pct a / 100)) /\
      cell u (Int y) "Equity Capex"
        = Some (-1 * share a * (1 - leverage_pct a / 100)).
Proof.
  intros W. destruct (pro_forma_unrounded_ok sim a W) as (f2 & _ & _ & _ & _ & Hf & E).
  eexists. split; [exact E|]. intros y Hy.
  rewrite !(unrounded_early_cell sim a f2 Hf)
    by (intros H; apply column_in_In in H; discriminate H).
  unfold frame1, construction_frame. frame.
  rewrite (label_in_construction_years a y Hy). now repeat split.
Qed.

Lemma calculate_pro_forma_round (sim : list SimRow) (a : Scenario) (u : DataFrame) :
  pro_forma_unrounded sim a = Ok u -> calculate_pro_forma sim a = Ok (DataFrame_round2 u).
Proof. intros H. unfold calculate_pro_forma. now rewrite H. Qed.

Lemma example_well_formed : well_formed two_rows example_scenario.
Proof.
  split.
  - reflexivity.
  - cbn. lia.
  - intros H. vm_compute in H. discriminate H.
  - cbn. lia.
  - discriminate.
Qed.

(** Claim C3, as amended.  On a well-formed scenario the table is returned
    and, before the final rounding, every construction year
    [-(n - 1) .. 0] has Capital Expenditure equal to minus the equal share
    [total_capex / n], Debt Contribution equal to plus the share times the
    leverage, and Equity Capex equal to minus the share times one minus the
    leverage; so Equity Capex MINUS Debt Contribution equals Capital
    Expenditure: the debt contribution is recorded positive, the equity
    part negative.  The returned table holds the three values rounded to
    two decimals. *)
Theorem construction_year_split (sim : list SimRow) (a : Scenario) :
  well_formed sim a ->
  exists u,
    pro_forma_unrounded sim a = Ok u /\
    calculate_pro_forma sim a = Ok (DataFrame_round2 u) /\
    forall y, (- (construction_time_years a - 1) <= y <= 0)%Z ->
      exists capex debt equity,
        cell u (Int y) "Capital Expenditure" = Some capex /\
        cell u (Int y) "Debt Contribution" = Some debt /\
        cell u (Int y) "Equity Capex" = Some equity /\
        capex == - (total_capex a / inject_Z (construction_time_years a)) /\
        debt == total_capex a / inject_Z (construction_time_years a)
                * (leverage_pct a / 100) /\
        equity == - (total_capex a / inject_Z (construction_time_years a)
                     * (1 - leverage_pct a / 100)) /\
        equity - debt == capex /\
        cell (DataFrame_round2 u) (Int y) "Capital Expenditure"
          = Some (round2 capex) /\
        cell (DataFrame_round2 u) (Int y) "Debt Contribution"
          = Some (round2 debt) /\
        cell (DataFrame_round2 u) (Int y) "Equity Capex"
          = Some (round2 equity).
Proof.
  intros W. destruct (construction_cells sim a W) as (u & E & H).
  exists u. split; [exact E|]. split; [now apply calculate_pro_forma_round|].
  intros y Hy. destruct (H y) as (H1 & H2 & H3); [lia|].
  exists (-1 * share a), (share a * (leverage_pct a / 100)),
         (-1 * share a * (1 - leverage_pct a / 100)).
  cbn [DataFrame_round2 cell]. rewrite H1, H2, H3. cbn [option_map].
  repeat split; unfold share; ring.
Qed.

(** Claim C3: the amended statement at the example scenario. *)
Lemma construction_year_split_witness :
  well_formed two_rows example_scenario /\
  exists u,
    pro_forma_unrounded two_rows example_scenario = Ok u /\
    calculate_pro_forma two_rows example_scenario = Ok (DataFrame_round2 u) /\
    forall y, (- (construction_time_years example_scenario - 1) <= y <= 0)%Z ->
      exists capex debt equity,
        cell u (Int y) "Capital Expenditure" = Some capex /\
        cell u (Int y) "Debt Contribution" = Some debt /\
        cell u (Int y) "Equity Capex" = Some equity /\
        capex == - (total_capex example_scenario
                    / inject_Z (construction_time_years example_scenario)) /\
        debt == total_capex example_scenario
                / inject_Z (construction_time_years example_scenario)
                * (leverage_pct example_scenario / 100) /\
        equity == - (total_capex example_scenario
                     / inject_Z (construction_time_years example_scenario)
                     * (1 - leverage_pct example_scenario / 100)) /\
        equity - debt == capex /\
        cell (DataFrame_round2 u) (Int y) "Capital Expenditure"
          = Some (round2 capex) /\
        cell (DataFrame_round2 u) (Int y) "Debt Contribution"
          = Some (round2 debt) /\
        cell (DataFrame_round2 u) (Int y) "Equity Capex"
          = Some (round2 equity).
Proof.
  split; [exact example_well_formed|].
  apply (construction_year_split two_rows example_scenario example_well_formed).
Defined.

(** Claim C3 as stated fails: in the table returned for the example
    scenario, year 0 has Capital Expenditure -100, Debt Contribution 70 and
    Equity Capex -30, and -30 + 70 is not -100. *)
Lemma construction_year_sum_fails :
  exists df capex debt equity,
    calculate_pro_forma two_rows example_scenario = Ok df /\
    cell df (Int 0) "Capital Expenditure" = Some capex /\
    cell df (Int 0) "Debt Contribution" = Some debt /\
    cell df (Int 0) "Equity Capex" = Some equity /\
    ~ equity + debt == capex.
Proof.
  destruct (construction_cells two_rows example_scenario example_well_formed) as (u & E & H).
  destruct (H 0%Z) as (H1 & H2 & H3); [cbn; lia|].
  exists (DataFrame_round2 u). do 3 eexists.
  split; [now apply calculate_pro_forma_round|].
  cbn [DataFrame_round2 cell]. rewrite H1, H2, H3. cbn [option_map].
  repeat split. intros C. vm_compute in C. discriminate C.
Qed.

Lemma operating_list : filter (fun y => (0 <? y)%Z) years =
  [1; 2; 3; 4; 5; 6; 7; 8; 9; 10; 11; 12; 13; 14; 15; 16; 17; 18; 19; 20]%Z.
Proof. reflexivity. Qed.

Lemma In_operating_list (y : Z) :
  In y (filter (fun y => (0 <? y)%Z) years) <-> (1 <= y <= 20)%Z.
Proof.
  rewrite filter_In. split.
  - intros [H1 H2]. assert (H := proj1 (In_years y) (in_map Int _ _ H1)). lia.
  - intros H. split; [|lia].
    assert (G := proj2 (In_years y)). 
    destruct (proj1 (in_map_iff Int years (Int y)) (G ltac:(lia))) as (x & E & Hx).
    now inversion E; subst.
Qed.

Lemma debt_service_year (a : Scenario) (p d : Q) (df : DataFrame) (y : Z) (l : label) :
  cell (debt_tax_year a p d df y) l "Debt Service" =
  if label_eqb (Int y) l then num (-1 * p) else cell df l "Debt Service".
Proof.
  unfold debt_tax_year. destruct (y <? debt_term_years a)%Z; frame; reflexivity.
Qed.

Lemma debt_service_loop (a : Scenario) (p d : Q) (ys : list Z) (df : DataFrame) (l : label) :
  cell (fold_left (debt_tax_year a p d) ys df) l "Debt Service" =
  if existsb (fun y => label_eqb (Int y) l) ys
  then num (-1 * p) else cell df l "Debt Service".
Proof.
  revert df. induction ys as [|y ys IH]; intros df; cbn [fold_left existsb]; [reflexivity|].
  rewrite IH, debt_service_year.
  destruct (label_eqb (Int y) l), (existsb _ ys); reflexivity.
Qed.

Lemma debt_service_cells (sim : list SimRow) (a : Scenario) :
  well_formed sim a ->
  exists u,
    pro_forma_unrounded sim a = Ok u /\
    forall y, (1 <= y <= 20)%Z ->
      cell u (Int y) "Debt Service" = Some (-1 * payment a).
Proof.
  intros W. destruct (pro_forma_unrounded_ok sim a W) as (f2 & _ & _ & _ & _ & Hf & E).
  eexists. split; [exact E|]. intros y Hy.
  rewrite npv_row_dated by reflexivity.
  unfold before_npv.
  rewrite tax_and_cash_flow_other
    by (intros H; apply column_in_In in H; discriminate H).
  unfold debt_tax_capital. rewrite debt_service_loop.
  replace (existsb _ _) with true; [reflexivity|].
  symmetry. apply existsb_exists. exists y. split.
  - now apply In_operating_list.
  - apply label_eqb_refl.
Qed.

(** Claim C4.  On a well-formed scenario, whatever [debt_term_years] is,
    the Debt Service of every operating year 1..20 is minus the fixed
    annual payment: exactly so before the final rounding, and rounded to
    two decimals in the returned table. *)
Theorem debt_service_every_operating_year (sim : list SimRow) (a : Scenario) :
  well_formed sim a ->
  exists u p,
    pro_forma_unrounded sim a = Ok u /\
    calculate_pro_forma sim a = Ok (DataFrame_round2 u) /\
    fixed_debt_payment a = Ok p /\
    forall y, (1 <= y <= 20)%Z ->
      exists q,
        cell u (Int y) "Debt Service" = Some q /\ q == - p /\
        cell (DataFrame_round2 u) (Int y) "Debt Service" = Some (round2 q).
Proof.
  intros W. destruct (debt_service_cells sim a W) as (u & E & H).
  exists u, (payment a). split; [exact E|].
  split; [now apply calculate_pro_forma_round|].
  split; [apply fixed_debt_payment_ok; apply W|].
  intros y Hy. exists (-1 * payment a). split; [now apply H|].
  split; [ring|]. cbn [DataFrame_round2 cell]. now rewrite H.
Qed.

Lemma unit_rate_step (b e : Q) (y : Z) :
  (1 <= y)%Z -> unit_rate b e (y + 1) == unit_rate b e y * (1 + e / 100).
Proof.
  intros Hy. unfold unit_rate.
  replace (y + 1 - 1)%Z with ((y - 1) + 1)%Z by lia.
  destruct (Z.eq_dec y 1) as [->|Hn].
  - cbn. field.
  - rewrite Qpower_plus' by lia. rewrite Qpower_1_r. ring.
Qed.

Lemma unit_rate_neg (b e : Q) (y : Z) :
  0 < b -> 0 < e -> unit_rate b e y < 0.
Proof.
  intros Hb He. unfold unit_rate.
  assert (G : 0 < (1 + e / 100) ^ (y - 1)).
  { apply Qpower_0_lt. assert (0 < e / 100) by (apply Qlt_shift_div_l; lra). lra. }
  assert (P := Qmult_lt_0_compat _ _ Hb G). lra.
Qed.

Lemma unit_rate_decreases (b e : Q) (y : Z) :
  0 < b -> 0 < e -> (1 <= y)%Z -> unit_rate b e (y + 1) < unit_rate b e y.
Proof.
  intros Hb He Hy. rewrite unit_rate_step by assumption.
  assert (N := unit_rate_neg b e y Hb He).
  assert (E : 0 < e / 100) by (apply Qlt_shift_div_l; lra).
  assert (P : 0 < (- unit_rate b e y) * (e / 100)) by (apply Qmult_lt_0_compat; lra).
  lra.
Qed.

Lemma unit_rate_constant (b e : Q) (y : Z) :
  e == 0 -> (1 <= y)%Z -> unit_rate b e (y + 1) == unit_rate b e y.
Proof.
  intros He Hy. rewrite unit_rate_step by assumption.
  assert (G : 1 + e / 100 == 1) by (rewrite He; reflexivity).
  rewrite G. ring.
Qed.

Lemma index_frame1 (sim : list SimRow) (a : Scenario) (y : Z) :
  (-1 <= y <= 20)%Z -> label_in (Int y) (index (frame1 sim a)) = true.
Proof.
  intros H. apply label_in_In. unfold frame1, construction_frame. assignments.
  apply index_frame0. now apply In_years.
Qed.

Lemma rate_cells (sim : list SimRow) (a : Scenario) :
  well_formed sim a ->
  exists u,
    pro_forma_unrounded sim a = Ok u /\
    forall c base esc, In (c, (base, esc)) (rate_columns a) ->
    forall y, (1 <= y <= 20)%Z ->
      cell u (Int y) c = Some (unit_rate base esc y).
Proof.
  intros W. destruct (pro_forma_unrounded_ok sim a W) as (f2 & _ & _ & _ & _ & Hf & E).
  eexists. split; [exact E|]. intros c base esc Hc y Hy.
  assert (O : (0 <? y)%Z = true) by lia.
  assert (I := index_frame1 sim a y ltac:(lia)).
  rewrite npv_row_dated by reflexivity.
  cbn [rate_columns In] in Hc.
  repeat (destruct Hc as [Hc|Hc]; [inversion Hc; subst c base esc;
    rewrite before_npv_other
      by (intros H; apply column_in_In in H; discriminate H);
    rewrite Hf by (intros H; apply column_in_In in H; discriminate H);
    unfold unit_rates; frame; cbn [operating_years]; rewrite O, I; reflexivity|]).
  contradiction.
Qed.

Lemma debt_outstanding_step (PV r p : Q) (k : nat) :
  debt_outstanding PV r p (S k) == debt_outstanding PV r p k * (1 + r) - p.
Proof. cbn [debt_outstanding]. unfold principal_of, interest_of. ring. Qed.

Lemma Qpower_succ (g : Q) (k : nat) :
  g ^ Z.of_nat (S k) == g ^ Z.of_nat k * g.
Proof.
  rewrite Nat2Z.inj_succ. unfold Z.succ.
  rewrite Qpower_plus' by lia. now rewrite Qpower_1_r.
Qed.

Lemma debt_outstanding_closed (PV r p : Q) (k : nat) :
  debt_outstanding PV r p k * r ==
  PV * r * (1 + r) ^ Z.of_nat k - p * ((1 + r) ^ Z.of_nat k - 1).
Proof.
  induction k as [|k IH].
  - cbn. ring.
  - rewrite debt_outstanding_step, Qpower_succ.
    transitivity ((debt_outstanding PV r p k * r) * (1 + r) - p * r); [ring|].
    rewrite IH. ring.
Qed.

Lemma amortization_sum (PV r p : Q) (n : nat) :
  Qsum (fun k => p + interest_expense PV r p k) n ==
  PV - debt_outstanding PV r p n.
Proof.
  induction n as [|n IH]; cbn [Qsum].
  - cbn. ring.
  - rewrite IH, debt_outstanding_step.
    unfold interest_expense, interest_of. ring.
Qed.

Lemma loan_closes (PV r : Q) (n : Z) :
  0 < r -> (1 <= n)%Z ->
  debt_outstanding PV r (PV * r * (1 + r) ^ n / ((1 + r) ^ n - 1)) (Z.to_nat n) == 0.
Proof.
  intros Hr Hn.
  set (p := PV * r * (1 + r) ^ n / ((1 + r) ^ n - 1)).
  assert (G := growth_gt_1 r n Hr Hn).
  assert (E := debt_outstanding_closed PV r p (Z.to_nat n)).
  rewrite Z2Nat.id in E by lia.
  assert (P : p * ((1 + r) ^ n - 1) == PV * r * (1 + r) ^ n).
  { unfold p. field. lra. }
  rewrite P in E.
  assert (Z : debt_outstanding PV r p (Z.to_nat n) * r == 0) by (rewrite E; ring).
  apply Qmult_integral in Z. destruct Z as [Z|Z]; [exact Z | lra].
Qed.

Lemma principal_sum (PV r p : Q) (n : nat) :
  Qsum (fun k => - principal_payment PV r p k) n ==
  PV - debt_outstanding PV r p n.
Proof.
  induction n as [|n IH]; cbn [Qsum].
  - cbn. ring.
  - rewrite IH. cbn [debt_outstanding]. unfold principal_payment. ring.
Qed.

(** Claim C5, as amended.  For a rate [r > 0] and a term [n >= 1] (and any
    principal), the payment formula returns a payment [p] with which the
    declining-balance recurrence of the debt loop brings the balance to
    zero after [n] years, and the principal is the sum over the years of
    [p + interest_y], where [interest_y = - balance_y * r] is the (negative)
    Interest Expense; equivalently the sum of minus the principal
    payments. *)
Theorem loan_fully_amortizes (PV r : Q) (n : Z) :
  0 < r -> (1 <= n)%Z ->
  exists p,
    PMT PV r n = Ok p /\
    debt_outstanding PV r p (Z.to_nat n) == 0 /\
    PV == Qsum (fun k => p + interest_expense PV r p k) (Z.to_nat n) /\
    PV == Qsum (fun k => - principal_payment PV r p k) (Z.to_nat n).
Proof.
  intros Hr Hn. eexists. split; [now apply PMT_ok|].
  assert (C := loan_closes PV r n Hr Hn).
  split; [exact C|]. split.
  - rewrite amortization_sum, C. ring.
  - rewrite principal_sum, C. ring.
Qed.

(** Claim C5 as stated fails: with [interest_y = - balance_y * r] as the
    claim defines it, a loan of 100 at 10% over one year has payment 110 and
    interest -10, and [p - interest_1] is 120, not 100. *)
Lemma amortization_claimed_sum_fails :
  exists p,
    PMT 100 (1 # 10) 1 = Ok p /\
    ~ 100 == Qsum (fun k => p - interest_expense 100 (1 # 10) p k) 1.
Proof.
  eexists. split; [reflexivity|].
  intros C. vm_compute in C. discriminate C.
Qed.

Lemma debt_columns_year (a : Scenario) (p d : Q) (df : DataFrame) (y : Z) (l : label) :
  cell (debt_tax_year a p d df y) l "Interest Expense" =
    (if label_eqb (Int y) l
     then (num (-1) * cell df (Int y) "Debt Outstanding, Yr Start"
           * num (interest_rate a))%cell
     else cell df l "Interest Expense") /\
  cell (debt_tax_year a p d df y) l "Principal Payment" =
    (if label_eqb (Int y) l
     then (num (-1 * p)
           - num (-1) * cell df (Int y) "Debt Outstanding, Yr Start"
             * num (interest_rate a))%cell
     else cell df l "Principal Payment") /\
  cell (debt_tax_year a p d df y) l "Debt Outstanding, Yr Start" =
    (if (y <? debt_term_years a)%Z && label_eqb (Int (y + 1)) l
     then (cell df (Int y) "Debt Outstanding, Yr Start"
           + (num (-1 * p)
              - num (-1) * cell df (Int y) "Debt Outstanding, Yr Start"
                * num (interest_rate a)))%cell
     else cell df l "Debt Outstanding, Yr Start").
Proof.
  unfold debt_tax_year.
  destruct (y <? debt_term_years a)%Z; frame; cbn [label_eqb];
    rewrite ?Z.eqb_refl; cbn [andb]; repeat split; reflexivity.
Qed.

Lemma debt_schedule_loop (a : Scenario) (p d : Q) (df : DataFrame) (k : nat) :
  cell df (Int 1) "Debt Outstanding, Yr Start" = Some (total_debt a) ->
  let df_k := fold_left (debt_tax_year a p d) (map year_of (seq 0 k)) df in
  (forall i, (i <= k)%nat -> (Z.of_nat i < debt_term_years a)%Z ->
     cell df_k (Int (year_of i)) "Debt Outstanding, Yr Start"
     = Some (debt_outstanding (total_debt a) (interest_rate a) p i)) /\
  (forall i, (i < k)%nat -> (Z.of_nat i < debt_term_years a)%Z ->
     cell df_k (Int (year_of i)) "Interest Expense"
     = Some (interest_expense (total_debt a) (interest_rate a) p i) /\
     cell df_k (Int (year_of i)) "Principal Payment"
     = Some (principal_payment (total_debt a) (interest_rate a) p i)).
Proof.
  intros H0. induction k as [|k [IHd IHi]]; cbn zeta.
  - split.
    + intros i Hi _. assert (i = 0%nat) by lia. subst i. exact H0.
    + intros i Hi. lia.
  - rewrite seq_S, map_app, fold_left_app. cbn [plus map fold_left].
    set (df_k := fold_left (debt_tax_year a p d) (map year_of (seq 0 k)) df) in *.
    cbn zeta in IHd, IHi.
    destruct (debt_columns_year a p d df_k (year_of k) (Int (year_of k))) as (_ & _ & _).
    split.
    + intros i Hi Ht.
      destruct (debt_columns_year a p d df_k (year_of k) (Int (year_of i))) as (_ & _ & ->).
      cbn [label_eqb].
      destruct (Z.eqb_spec (year_of k + 1) (year_of i)) as [E|E].
      * assert (i = S k) by (unfold year_of in E; lia). subst i.
        replace (year_of k <? debt_term_years a)%Z with true
          by (unfold year_of; lia).
        cbn [andb]. rewrite (IHd k) by lia. reflexivity.
      * rewrite andb_false_r. apply IHd; [|assumption].
        unfold year_of in E. lia.
    + intros i Hi Ht.
      destruct (debt_columns_year a p d df_k (year_of k) (Int (year_of i))) as (-> & -> & _).
      cbn [label_eqb].
      destruct (Z.eqb_spec (year_of k) (year_of i)) as [E|E].
      * assert (i = k) by (unfold year_of in E; lia). subst i.
        rewrite (IHd k) by lia. split; reflexivity.
      * apply IHi; [|assumption]. unfold year_of in E. lia.
Qed.

Lemma debt_schedule_cells (sim : list SimRow) (a : Scenario) :
  well_formed sim a ->
  exists u,
    pro_forma_unrounded sim a = Ok u /\
    forall i, (i < 20)%nat -> (Z.of_nat i < debt_term_years a)%Z ->
      cell u (Int (year_of i)) "Debt Outstanding, Yr Start"
      = Some (debt_outstanding (total_debt a) (interest_rate a) (payment a) i) /\
      cell u (Int (year_of i)) "Interest Expense"
      = Some (interest_expense (total_debt a) (interest_rate a) (payment a) i) /\
      cell u (Int (year_of i)) "Principal Payment"
      = Some (principal_payment (total_debt a) (interest_rate a) (payment a) i).
Proof.
  intros W. destruct (pro_forma_unrounded_ok sim a W) as (f2 & _ & _ & _ & _ & Hf & E).
  eexists. split; [exact E|]. intros i Hi Ht.
  assert (H0 : cell f2 (Int 1) "Debt Outstanding, Yr Start" = Some (total_debt a)).
  { rewrite Hf by (intros H; apply column_in_In in H; discriminate H).
    rewrite unit_rates_other by (intros H; apply column_in_In in H; discriminate H).
    unfold frame1.
    rewrite construction_frame_other by (intros H; apply column_in_In in H; discriminate H).
    unfold frame0. frame. reflexivity. }
  destruct (debt_schedule_loop a (payment a)
              (amount_that_is_depreciable a (renewable a)) f2 20 H0) as [Hd Hie].
  cbn zeta in Hd, Hie.
  rewrite !npv_row_dated by reflexivity.
  unfold before_npv.
  rewrite !tax_and_cash_flow_other
    by (intros H; apply column_in_In in H; discriminate H).
  unfold debt_tax_capital. rewrite operating_list.
  change [1; 2; 3; 4; 5; 6; 7; 8; 9; 10; 11; 12; 13; 14; 15; 16; 17; 18; 19; 20]%Z
    with (map year_of (seq 0 20)).
  split; [apply Hd; [lia | assumption] | apply Hie; [lia | assumption]].
Qed.

Lemma dated_before_npv (a : Scenario) (f2 : DataFrame) :
  dated f2 -> dated (before_npv a f2).
Proof.
  intros H. unfold before_npv.
  now apply dated_tax_and_cash_flow, dated_debt_tax_capital.
Qed.

Lemma columns_before_npv (a : Scenario) (f2 : DataFrame) :
  incl (columns f2) (columns (before_npv a f2)).
Proof.
  unfold before_npv.
  eapply incl_tran; [apply columns_debt_tax_capital | apply columns_tax_and_cash_flow].
Qed.

Lemma same_dated_npv_row (a : Scenario) (df : DataFrame) : same_dated df (npv_row a df).
Proof. unfold npv_row. apply npv_fold_same, same_dated_refl. Qed.

Lemma npv_row_entry (a : Scenario) (df : DataFrame) (c : string) :
  dated df -> In c (columns df) ->
  cell (npv_row a df) (Str "NPV") c =
  match npv_entry a (npv_row a df) c with
  | Some v => v
  | None => None
  end.
Proof.
  intros [_ Hd] Hc. unfold npv_row at 1.
  rewrite (npv_fold_entry a df (columns df) df c (same_dated_refl df)).
  apply column_in_In in Hc. rewrite Hc, Hd.
  now rewrite (npv_entry_same a df (npv_row a df) c (same_dated_npv_row a df)).
Qed.

Lemma columns_npv_row (a : Scenario) (df : DataFrame) :
  columns (npv_row a df) = columns df.
Proof. unfold npv_row. apply columns_npv_fold, incl_refl. Qed.

Lemma npv_cells (sim : list SimRow) (a : Scenario) :
  well_formed sim a ->
  exists u,
    pro_forma_unrounded sim a = Ok u /\
    incl powerflow_columns (columns u) /\
    forall c, In c (columns u) ->
      cell u (Str "NPV") c =
      match npv_entry a u c with
      | Some v => v
      | None => None
      end.
Proof.
  intros W. destruct (pro_forma_unrounded_ok sim a W) as (f2 & _ & _ & Hc & Hd & _ & E).
  eexists. split; [exact E|]. split.
  - rewrite columns_npv_row. eapply incl_tran; [exact Hc | apply columns_before_npv].
  - intros c H. rewrite columns_npv_row in H.
    apply npv_row_entry; [now apply dated_before_npv | assumption].
Qed.

(** Claim C6, as amended.  On a well-formed scenario the table is returned
    and the ['NPV'] entry of every column is, before the final rounding:
    the undiscounted sum over the dated rows for the five columns of
    [_CALCULATE_TOTALS]; absent for the columns of [_EXCLUDE_FROM_NPV] and
    also for the 'Operating Year' column; and the value of [calculate_npv]
    at the cost of equity with the construction-time shift for every other
    column.  The returned table holds these entries rounded to two
    decimals. *)
Theorem npv_row_entries (sim : list SimRow) (a : Scenario) :
  well_formed sim a ->
  exists u,
    pro_forma_unrounded sim a = Ok u /\
    calculate_pro_forma sim a = Ok (DataFrame_round2 u) /\
    forall c, In c (columns u) ->
      (In c _CALCULATE_TOTALS ->
         cell u (Str "NPV") c = Some (column_total u c)) /\
      (In c _EXCLUDE_FROM_NPV -> cell u (Str "NPV") c = None) /\
      (c = "Operating Year" -> cell u (Str "NPV") c = None) /\
      (~ In c _CALCULATE_TOTALS -> ~ In c _EXCLUDE_FROM_NPV ->
       c <> "Operating Year" ->
         cell u (Str "NPV") c = Some (column_npv a u c)) /\
      cell (DataFrame_round2 u) (Str "NPV") c
        = option_map round2 (cell u (Str "NPV") c).
Proof.
  intros W. destruct (npv_cells sim a W) as (u & E & _ & H).
  exists u. split; [exact E|]. split; [now apply calculate_pro_forma_round|].
  intros c Hc.
  assert (R : cell (DataFrame_round2 u) (Str "NPV") c
              = option_map round2 (cell u (Str "NPV") c)) by reflexivity.
  revert R. rewrite (H c Hc). unfold npv_entry. intros R.
  split; [|split; [|split; [|split]]].
  - intros T. apply column_in_In in T. now rewrite T.
  - intros X. cbn [_EXCLUDE_FROM_NPV In] in X.
    repeat (destruct X as [X|X]; [subst c; reflexivity|]). contradiction.
  - intros ->. reflexivity.
  - intros T X O.
    replace (column_in c _CALCULATE_TOTALS) with false
      by (symmetry; apply not_true_is_false; intros G; now apply column_in_In in G).
    replace (column_in c _EXCLUDE_FROM_NPV) with false
      by (symmetry; apply not_true_is_false; intros G; now apply column_in_In in G).
    replace (column_in c ["Operating Year"]) with false; [reflexivity|].
    symmetry. apply not_true_is_false. intros G. apply column_in_In in G.
    destruct G as [G|[]]. now subst c.
  - exact R.
Qed.

(** Claim C6 as stated fails: 'Operating Year' is a column of the returned
    table, it is in neither list, and its ['NPV'] entry is absent rather
    than a discounted value. *)
Lemma operating_year_has_no_npv :
  exists df,
    calculate_pro_forma two_rows example_scenario = Ok df /\
    In "Operating Year" (columns df) /\
    ~ In "Operating Year" _CALCULATE_TOTALS /\
    ~ In "Operating Year" _EXCLUDE_FROM_NPV /\
    cell df (Str "NPV") "Operating Year" = None.
Proof.
  destruct (npv_cells two_rows example_scenario example_well_formed) as (u & E & Hc & H).
  assert (I : In "Operating Year" (columns u)) by (apply Hc; now left).
  exists (DataFrame_round2 u).
  split; [now apply calculate_pro_forma_round|].
  split; [exact I|].
  split; [intros G; apply column_in_In in G; discriminate G|].
  split; [intros G; apply column_in_In in G; discriminate G|].
  cbn [DataFrame_round2 cell]. rewrite (H _ I). reflexivity.
Qed.

Lemma unique_eq (x : Z) (l : list Z) :
  unique (x :: l) = x :: filter (other_than x) (unique l).
Proof. reflexivity. Qed.

Lemma filter_other_than_comm (x z : Z) (l : list Z) :
  filter (other_than z) (filter (other_than x) l)
  = filter (other_than x) (filter (other_than z) l).
Proof.
  induction l as [|y l IH]; [reflexivity|]. cbn [filter].
  destruct (other_than x y) eqn:Ex, (other_than z y) eqn:Ez; cbn [filter];
    rewrite ?Ex, ?Ez, ?IH; reflexivity.
Qed.

Lemma filter_other_than_idem (z : Z) (l : list Z) :
  filter (other_than z) (filter (other_than z) l) = filter (other_than z) l.
Proof.
  induction l as [|y l IH]; [reflexivity|]. cbn [filter].
  destruct (other_than z y) eqn:Ez; cbn [filter]; rewrite ?Ez, ?IH; reflexivity.
Qed.

Lemma filter_unique (z : Z) (l : list Z) :
  filter (other_than z) (unique l) = unique (filter (other_than z) l).
Proof.
  induction l as [|x l IH]; [reflexivity|].
  rewrite unique_eq. cbn [filter].
  destruct (other_than z x) eqn:E.
  - rewrite unique_eq, <- IH. f_equal. apply filter_other_than_comm.
  - assert (x = z) by (unfold other_than in E; lia). subst x.
    now rewrite filter_other_than_idem.
Qed.

Lemma unique_duplicate (x : Z) (l1 l2 : list Z) :
  In x l1 -> unique (l1 ++ x :: l2) = unique (l1 ++ l2).
Proof.
  induction l1 as [|z l1 IH]; intros H; [destruct H|].
  cbn [app]. rewrite !unique_eq. f_equal.
  destruct (Z.eq_dec z x) as [->|N].
  - rewrite !filter_unique. f_equal.
    rewrite !filter_app. cbn [filter].
    replace (other_than x x) with false by (unfold other_than; lia).
    reflexivity.
  - destruct H as [H|H]; [contradiction|]. now rewrite IH.
Qed.

Lemma find_duplicate (s1 s2 : list SimRow) (r r' : SimRow) (y : Z) :
  In r s1 -> Operating_Year r' = Operating_Year r ->
  find (fun x => (Operating_Year x =? y)%Z) (s1 ++ r' :: s2)
  = find (fun x => (Operating_Year x =? y)%Z) (s1 ++ s2).
Proof.
  intros H E. induction s1 as [|x s1 IH]; [destruct H|].
  cbn [app find]. destruct (Operating_Year x =? y)%Z eqn:Ex; [reflexivity|].
  destruct H as [->|H]; [|now apply IH].
  clear IH. induction s1 as [|x s1 IH]; cbn [app find].
  - now rewrite E, Ex.
  - now rewrite IH.
Qed.

Lemma fold_left_ext_fun {A B : Type} (f g : A -> B -> A) (l : list B) (x : A) :
  (forall x b, f x b = g x b) -> fold_left f l x = fold_left g l x.
Proof.
  intros H. revert x. induction l as [|b l IH]; intros x; cbn; [reflexivity|].
  now rewrite H, IH.
Qed.

Lemma populate_duplicate (s1 s2 : list SimRow) (r r' : SimRow) (df : DataFrame) :
  In r s1 -> Operating_Year r' = Operating_Year r ->
  populate (s1 ++ r' :: s2) df = populate (s1 ++ s2) df.
Proof.
  intros H E. unfold populate.
  rewrite !map_app. cbn [map].
  rewrite unique_duplicate by (rewrite E; now apply in_map).
  apply fold_left_ext_fun. intros x y. unfold populate_year.
  now rewrite (find_duplicate s1 s2 r r' y H E).
Qed.

Lemma pro_forma_duplicate (a : Scenario) (s1 s2 : list SimRow) (r r' : SimRow) :
  In r s1 -> Operating_Year r' = Operating_Year r ->
  calculate_pro_forma (s1 ++ r' :: s2) a = calculate_pro_forma (s1 ++ s2) a.
Proof.
  intros H E. unfold calculate_pro_forma, pro_forma_unrounded.
  now rewrite (populate_duplicate s1 s2 r r' (DataFrame_new (map Int years)) H E).
Qed.

Lemma populate_year_found (sim : list SimRow) (df : DataFrame) (y : Z) (first : SimRow) (c : string) :
  find (fun x => (Operating_Year x =? y)%Z) sim = Some first ->
  In c _POWERFLOW_COLUMNS_TO_ASSIGN ->
  cell (populate_year sim df y) (Int y) c = Some (item first c).
Proof.
  intros F Hc. unfold populate_year. rewrite F.
  cbn [fold_left _POWERFLOW_COLUMNS_TO_ASSIGN].
  cbn [_POWERFLOW_COLUMNS_TO_ASSIGN In] in Hc.
  repeat (destruct Hc as [Hc|Hc];
          [subst c; frame; cbn [label_eqb]; rewrite Z.eqb_refl; reflexivity|]).
  contradiction.
Qed.

Lemma populate_year_other_row (sim : list SimRow) (df : DataFrame) (y y' : Z) (c : string) :
  y' <> y -> cell (populate_year sim df y') (Int y) c = cell df (Int y) c.
Proof.
  intros N. unfold populate_year. destruct (find _ sim); [|reflexivity].
  cbn [fold_left _POWERFLOW_COLUMNS_TO_ASSIGN]. assignments. cbn [label_eqb].
  replace (y' =? y)%Z with false by lia. now rewrite !andb_false_r.
Qed.

Lemma populate_fold_found (sim : list SimRow) (y : Z) (first : SimRow) (c : string) (ys : list Z) (df : DataFrame) :
  find (fun x => (Operating_Year x =? y)%Z) sim = Some first ->
  In c _POWERFLOW_COLUMNS_TO_ASSIGN ->
  In y ys ->
  cell (fold_left (populate_year sim) ys df) (Int y) c = Some (item first c).
Proof.
  intros F Hc. revert df. induction ys as [|y0 ys IH]; intros df H; [destruct H|].
  cbn [fold_left]. destruct (in_dec Z.eq_dec y ys) as [I|I]; [now apply IH|].
  destruct H as [->|H]; [|contradiction].
  clear IH. revert I. generalize (populate_year sim df y) (populate_year_found sim df y first c F Hc).
  induction ys as [|y1 ys IH]; intros d Hd I; cbn [fold_left]; [exact Hd|].
  apply IH.
  - rewrite populate_year_other_row; [exact Hd|]. intros ->. apply I. now left.
  - intros G. apply I. now right.
Qed.

Lemma In_unique (y : Z) (l : list Z) : In y l -> In y (unique l).
Proof.
  induction l as [|x l IH]; intros H; [destruct H|].
  rewrite unique_eq. destruct (Z.eq_dec x y) as [->|N]; [now left|].
  right. apply filter_In. split.
  - destruct H as [H|H]; [contradiction | now apply IH].
  - unfold other_than. lia.
Qed.

Lemma populate_found (sim : list SimRow) (df : DataFrame) (y : Z) (first : SimRow) (c : string) :
  find (fun x => (Operating_Year x =? y)%Z) sim = Some first ->
  In c _POWERFLOW_COLUMNS_TO_ASSIGN ->
  cell (populate sim df) (Int y) c = Some (item first c).
Proof.
  intros F Hc. unfold populate. apply populate_fold_found; try assumption.
  apply In_unique. apply find_some in F. destruct F as [F1 F2].
  apply in_map_iff. exists first. split; [lia | assumption].
Qed.

Lemma powerflow_cells (sim : list SimRow) (a : Scenario) :
  well_formed sim a ->
  exists u,
    pro_forma_unrounded sim a = Ok u /\
    forall y first c,
      find (fun x => (Operating_Year x =? y)%Z) (sim) = Some first ->
      In c _POWERFLOW_COLUMNS_TO_ASSIGN ->
      cell u (Int y) c = Some (item first c).
Proof.
  intros W. destruct (pro_forma_unrounded_ok sim a W) as (f2 & _ & _ & _ & _ & Hf & E).
  eexists. split; [exact E|]. intros y first c F Hc.
  assert (L : ~ In c late_columns /\ ~ In c construction_columns
              /\ "Debt Outstanding, Yr Start" <> c /\ "Federal ITC" <> c).
  { cbn [_POWERFLOW_COLUMNS_TO_ASSIGN In] in Hc.
    repeat (destruct Hc as [Hc|Hc];
            [subst c; repeat split;
             try (intros H; apply column_in_In in H; discriminate H);
             discriminate|]).
    contradiction. }
  destruct L as (L1 & L2 & L3 & L4).
  rewrite (unrounded_early_cell sim a f2 Hf) by assumption.
  unfold frame1. rewrite construction_frame_other by assumption.
  unfold frame0. assignments.
  apply String.eqb_neq in L3, L4. rewrite L3, L4. cbn [andb].
  now apply populate_found.
Qed.

Lemma scenario_well_formed (n : Z) :
  (1 <= n <= 2)%Z -> well_formed two_rows (scenario 1 10 n).
Proof.
  intros H. split.
  - reflexivity.
  - cbn. lia.
  - intros C. vm_compute in C. discriminate C.
  - exact H.
  - discriminate.
Qed.

Lemma pro_forma_zero_rate (sim : list SimRow) (a : Scenario) :
  cost_of_debt_pct a == 0 -> calculate_pro_forma sim a = Raise ZeroDivisionError.
Proof.
  intros H. unfold calculate_pro_forma, pro_forma_unrounded, fixed_debt_payment.
  rewrite PMT_zero_rate; [reflexivity|].
  unfold interest_rate. rewrite H. reflexivity.
Qed.

(** Claim C1, at a zero cost of debt.  The payment formula is evaluated as
    written, with no special case: when [cost_of_debt_pct] is zero the
    divisor [(1 + r)^n - 1] is zero, so computing the fixed debt payment
    raises [ZeroDivisionError] and [calculate_pro_forma] returns no table;
    the payment is not [total_debt / debt_term_years].  For a positive rate
    over a term of at least one year the payment is the value of the
    formula ([fixed_debt_payment_ok]). *)
Theorem zero_cost_of_debt_raises (sim : list SimRow) (a : Scenario) :
  cost_of_debt_pct a == 0 ->
  fixed_debt_payment a = Raise ZeroDivisionError /\
  calculate_pro_forma sim a = Raise ZeroDivisionError.
Proof.
  intros H. split; [|now apply pro_forma_zero_rate].
  unfold fixed_debt_payment. apply PMT_zero_rate.
  unfold interest_rate. rewrite H. reflexivity.
Qed.

(** Claim C1: the theorem at a scenario whose cost of debt is 0%. *)
Lemma zero_cost_of_debt_raises_witness :
  cost_of_debt_pct (scenario 1 0 2) == 0 /\
  fixed_debt_payment (scenario 1 0 2) = Raise ZeroDivisionError /\
  calculate_pro_forma two_rows (scenario 1 0 2) = Raise ZeroDivisionError.
Proof.
  split; [reflexivity|].
  apply (zero_cost_of_debt_raises two_rows (scenario 1 0 2)). reflexivity.
Defined.

Lemma fixed_debt_payment_raises (a : Scenario) (e : error) :
  fixed_debt_payment a = Raise e -> e = ZeroDivisionError.
Proof. apply PMT_raises. Qed.

(** Claim C7, as amended.  When the total hard CAPEX is zero,
    [calculate_pro_forma] validates nothing: the division by zero in the
    payment formula or in the renewable proportion raises Python's
    [ZeroDivisionError], for every scenario and every powerflow output. *)
Theorem zero_hard_capex_raises (sim : list SimRow) (a : Scenario) :
  total_hard_capex a == 0 ->
  calculate_pro_forma sim a = Raise ZeroDivisionError.
Proof.
  intros H. unfold calculate_pro_forma, pro_forma_unrounded.
  destruct (fixed_debt_payment a) as [p|e] eqn:E; cbn [bind].
  - unfold renewable_proportion_of_hard_capex.
    now rewrite (truediv_zero _ _ H).
  - now rewrite (fixed_debt_payment_raises a e E).
Qed.

(** Claim C7: the amended statement at a scenario without hard CAPEX. *)
Lemma zero_hard_capex_raises_witness :
  total_hard_capex (scenario 0 10 2) == 0 /\
  calculate_pro_forma two_rows (scenario 0 10 2) = Raise ZeroDivisionError.
Proof.
  split; [reflexivity|].
  apply (zero_hard_capex_raises two_rows (scenario 0 10 2)). reflexivity.
Defined.

(** Claim C7 as stated fails: at a scenario without hard CAPEX the error
    raised is not [InvalidScenario]. *)
Lemma zero_hard_capex_no_domain_error :
  total_hard_capex (scenario 0 10 2) == 0 /\
  calculate_pro_forma two_rows (scenario 0 10 2) <> Raise InvalidScenario.
Proof.
  split; [reflexivity|].
  assert (E : calculate_pro_forma two_rows (scenario 0 10 2) = Raise ZeroDivisionError)
    by (vm_compute; reflexivity).
  rewrite E. discriminate.
Qed.

(** The debt and the tax credit [calculate_pro_forma] records for year 1. *)
Lemma first_year_cells (sim : list SimRow) (a : Scenario) :
  well_formed sim a ->
  exists u,
    pro_forma_unrounded sim a = Ok u /\
    cell u (Int 1) "Debt Outstanding, Yr Start" = Some (total_debt a) /\
    cell u (Int 1) "Federal ITC" = Some (tax_credit_amount a (renewable a)).
Proof.
  intros W. destruct (pro_forma_unrounded_ok sim a W) as (f2 & _ & _ & _ & _ & Hf & E).
  eexists. split; [exact E|].
  assert (H0 : cell f2 (Int 1) "Debt Outstanding, Yr Start" = Some (total_debt a)).
  { rewrite Hf by (intros H; apply column_in_In in H; discriminate H).
    rewrite unit_rates_other by (intros H; apply column_in_In in H; discriminate H).
    unfold frame1.
    rewrite construction_frame_other by (intros H; apply column_in_In in H; discriminate H).
    unfold frame0. frame. reflexivity. }
  split.
  - destruct (debt_schedule_loop a (payment a)
                (amount_that_is_depreciable a (renewable a)) f2 20 H0) as [Hd _].
    cbn zeta in Hd.
    rewrite npv_row_dated by reflexivity.
    unfold before_npv.
    rewrite tax_and_cash_flow_other
      by (intros H; apply column_in_In in H; discriminate H).
    unfold debt_tax_capital. rewrite operating_list.
    change [1; 2; 3; 4; 5; 6; 7; 8; 9; 10; 11; 12; 13; 14; 15; 16; 17; 18; 19; 20]%Z
      with (map year_of (seq 0 20)).
    change (Int 1) with (Int (year_of 0)).
    rewrite (Hd 0%nat); [reflexivity | lia |].
    destruct W as [_ Hn _ _ _]. cbn. lia.
  - rewrite (unrounded_early_cell sim a f2 Hf)
      by (intros H; apply column_in_In in H; discriminate H).
    unfold frame1.
    rewrite construction_frame_other by (intros H; apply column_in_In in H; discriminate H).
    unfold frame0. frame. reflexivity.
Qed.

(** Claim C9.  [calculate_capex] returns, in $M, the four components
    computed from the capacities and the unit costs of the inputs; the
    total hard cost it computes is their sum, and the soft costs it returns
    are that sum times the sum of the seven soft-cost percentages of the
    inputs over 100.  In [calculate_pro_forma] the total hard CAPEX is the
    sum of the four CAPEX arguments and the total CAPEX adds the soft
    costs, as the table shows: on a well-formed scenario the debt
    outstanding at the start of year 1 is the leverage share of the sum of
    the five arguments, and the Federal ITC of year 1 is that sum times the
    renewable proportion (solar + bess) / (solar + bess + generator +
    system integration) times the credit percentage.  No sign assumption on
    the inputs is needed. *)
Theorem capex_additivity (i : CapexInputs) (sim : list SimRow) (a : Scenario) :
  (solar (calculate_capex i) ==
     in_solar_pv_capacity_mw i
     * (pv_modules i + pv_inverters i + pv_racking i + pv_balance_system i
        + pv_labor i)
   /\ bess (calculate_capex i) ==
        in_bess_max_power_mw i * 4
        * (bess_units i + bess_balance_of_system i + bess_labor i) / 1000
   /\ generator (calculate_capex i) ==
        in_generator_capacity_mw i
        * (gensets i + gen_balance_of_system i + gen_labor i) / 1000
   /\ system_integration (calculate_capex i) ==
        in_datacenter_load_mw i
        * (si_microgrid i + si_controls i + si_labor i) / 1000)
  /\ CapexDollars.total_hard_costs i / 1000000 ==
       solar (calculate_capex i) + bess (calculate_capex i)
       + generator (calculate_capex i)
       + system_integration (calculate_capex i)
  /\ soft_costs (calculate_capex i) ==
       (solar (calculate_capex i) + bess (calculate_capex i)
        + generator (calculate_capex i)
        + system_integration (calculate_capex i))
       * (soft_costs_general_conditions i + soft_costs_epc_overhead i
          + soft_costs_design_engineering i + soft_costs_permitting i
          + soft_costs_startup i + soft_costs_insurance i
          + soft_costs_taxes i) / 100
  /\ total_hard_capex a ==
       solar_capex a + bess_capex a + generator_capex a
       + system_integration_capex a
  /\ total_capex a ==
       solar_capex a + bess_capex a + generator_capex a
       + system_integration_capex a + soft_costs_capex a
  /\ (well_formed sim a ->
      exists u debt itc,
        pro_forma_unrounded sim a = Ok u /\
        calculate_pro_forma sim a = Ok (DataFrame_round2 u) /\
        cell u (Int 1) "Debt Outstanding, Yr Start" = Some debt /\
        debt == (solar_capex a + bess_capex a + generator_capex a
                 + system_integration_capex a + soft_costs_capex a)
                * (leverage_pct a / 100) /\
        cell u (Int 1) "Federal ITC" = Some itc /\
        itc == (solar_capex a + bess_capex a + generator_capex a
                + system_integration_capex a + soft_costs_capex a)
               * ((solar_capex a + bess_capex a)
                  / (solar_capex a + bess_capex a + generator_capex a
                     + system_integration_capex a))
               * (investment_tax_credit_pct a / 100)).
Proof.
  split; [|split; [|split; [|split; [|split]]]].
  - unfold calculate_capex, CapexDollars.solar_capex, CapexDollars.bess_capex,
      CapexDollars.generator_capex, CapexDollars.system_integration_capex,
      CapexDollars.bess_system_mwh, _BESS_HRS_STORAGE.
    cbn [solar bess generator system_integration].
    repeat split; field.
  - unfold calculate_capex, CapexDollars.total_hard_costs.
    cbn [solar bess generator system_integration]. field.
  - unfold calculate_capex, CapexDollars.soft_costs, CapexDollars.total_hard_costs,
      CapexDollars.soft_pct_sum.
    cbn [soft_costs solar bess generator system_integration]. field.
  - reflexivity.
  - reflexivity.
  - intros W. destruct (first_year_cells sim a W) as (u & E & H1 & H2).
    exists u, (total_debt a), (tax_credit_amount a (renewable a)).
    split; [exact E|]. split; [now apply calculate_pro_forma_round|].
    split; [exact H1|]. split; [reflexivity|]. split; [exact H2|]. reflexivity.
Qed.

(** Claim C9: the theorem at the default unit costs and percentages and
    at the example scenario. *)
Lemma capex_additivity_witness :
  well_formed two_rows example_scenario /\
  soft_costs (calculate_capex default_inputs) ==
    (solar (calculate_capex default_inputs) + bess (calculate_capex default_inputs)
     + generator (calculate_capex default_inputs)
     + system_integration (calculate_capex default_inputs))
    * (soft_costs_general_conditions default_inputs
       + soft_costs_epc_overhead default_inputs
       + soft_costs_design_engineering default_inputs
       + soft_costs_permitting default_inputs
       + soft_costs_startup default_inputs
       + soft_costs_insurance default_inputs
       + soft_costs_taxes default_inputs) / 100 /\
  exists u debt itc,
    pro_forma_unrounded two_rows example_scenario = Ok u /\
    calculate_pro_forma two_rows example_scenario = Ok (DataFrame_round2 u) /\
    cell u (Int 1) "Debt Outstanding, Yr Start" = Some debt /\
    debt == 140 /\
    cell u (Int 1) "Federal ITC" = Some itc /\
    itc == 200 * (150 / 190) * (30 / 100).
Proof.
  destruct (capex_additivity default_inputs two_rows example_scenario)
    as (_ & _ & S & _ & _ & P).
  split; [exact example_well_formed|]. split; [exact S|].
  destruct (P example_well_formed) as (u & debt & itc & E1 & E2 & D1 & D2 & I1 & I2).
  exists u, debt, itc.
  split; [exact E1|]. split; [exact E2|]. split; [exact D1|].
  split; [rewrite D2; vm_compute; reflexivity|].
  split; [exact I1|].
  rewrite I2. vm_compute. reflexivity.
Defined.

Lemma index_npv_row (a : Scenario) (df : DataFrame) :
  incl (index df) (index (npv_row a df)).
Proof. unfold npv_row. apply index_npv_fold. Qed.

Lemma index_tax_and_cash_flow (a : Scenario) (df : DataFrame) :
  index (tax_and_cash_flow a df) = index df.
Proof. reflexivity. Qed.

Lemma index_unrounded_incl (sim : list SimRow) (a : Scenario) :
  well_formed sim a ->
  exists u,
    pro_forma_unrounded sim a = Ok u /\
    incl (map Int years) (index u).
Proof.
  intros W. destruct (pro_forma_unrounded_ok sim a W) as (f2 & _ & Hi & _ & _ & Hf & E).
  eexists. split; [exact E|].
  eapply incl_tran; [|apply (index_npv_row a (before_npv a f2))].
  unfold before_npv.
  rewrite index_tax_and_cash_flow.
  eapply incl_tran; [|apply index_debt_tax_capital].
  rewrite Hi. apply index_frame0.
Qed.

(** Claim C2, at one construction year.  The year index is the hard-coded
    [range(-1, 21)]: with [construction_time_years = 1] the returned table
    still has the row of year -1, which lies before the first year
    [-(n - 1) = 0] the claim allows.  (With three or more construction
    years the construction rows are missing from the index and the call
    raises, [long_construction_raises]; with two, a debt term of at most 20
    and powerflow years within -1..20 the rows are exactly -1..20 and
    ['NPV'], [year_index_default].) *)
Theorem year_index_is_hard_coded (sim : list SimRow) (a : Scenario) :
  well_formed sim a -> construction_time_years a = 1%Z ->
  exists df,
    calculate_pro_forma sim a = Ok df /\
    In (Int (-1)) (index df) /\
    ~ (- (construction_time_years a - 1) <= -1)%Z.
Proof.
  intros W N. destruct (index_unrounded_incl sim a W) as (u & E & H).
  exists (DataFrame_round2 u). split; [now apply calculate_pro_forma_round|].
  split; [|lia]. cbn [DataFrame_round2 index]. apply H. now apply In_years.
Qed.

(** Claim C2: the theorem at a scenario with one construction year. *)
Lemma year_index_is_hard_coded_witness :
  well_formed two_rows (scenario 1 10 1) /\
  construction_time_years (scenario 1 10 1) = 1%Z /\
  exists df,
    calculate_pro_forma two_rows (scenario 1 10 1) = Ok df /\
    In (Int (-1)) (index df) /\
    ~ (- (construction_time_years (scenario 1 10 1) - 1) <= -1)%Z.
Proof.
  assert (W : well_formed two_rows (scenario 1 10 1))
    by (apply scenario_well_formed; lia).
  split; [exact W|]. split; [reflexivity|].
  apply (year_index_is_hard_coded two_rows (scenario 1 10 1) W). reflexivity.
Defined.

Lemma index_frame0_In (sim : list SimRow) (a : Scenario) (ren : Q) (l : label) :
  In l (index (frame0 sim a ren)) ->
  In l (map Int years) \/ exists r, In r sim /\ l = Int (Operating_Year r).
Proof.
  unfold frame0. assignments. rewrite !add_label_In. intros [->|[->|H]].
  - left. now apply In_years.
  - left. now apply In_years.
  - apply index_populate in H. exact H.
Qed.

Lemma long_construction_raises (sim : list SimRow) (a : Scenario) :
  0 < cost_of_debt_pct a -> (1 <= debt_term_years a)%Z ->
  ~ total_hard_capex a == 0 ->
  (3 <= construction_time_years a)%Z ->
  (forall r, In r sim -> (-1 <= Operating_Year r)%Z) ->
  calculate_pro_forma sim a = Raise KeyError.
Proof.
  intros Hr Hn Hh Hc Hs. unfold calculate_pro_forma, pro_forma_unrounded.
  rewrite (fixed_debt_payment_ok a Hr Hn). cbn [bind].
  unfold renewable_proportion_of_hard_capex.
  rewrite (truediv_ok _ _ Hh). cbn [bind].
  unfold capex_per_year.
  rewrite truediv_ok by (apply inject_Z_nonzero; lia). cbn [bind].
  fold (renewable a). fold (share a). fold (frame0 sim a (renewable a)).
  rewrite (construction_period_missing a _ _ (Int (- construction_time_years a + 1))).
  - reflexivity.
  - apply In_construction_years. eexists. split; [reflexivity | lia].
  - intros H. apply index_frame0_In in H. destruct H as [H|(r & Hr' & E)].
    + apply In_years in H. lia.
    + inversion E. apply Hs in Hr'. lia.
Qed.

Lemma three_construction_years_raise :
  calculate_pro_forma two_rows (scenario 1 10 3) = Raise KeyError.
Proof.
  apply long_construction_raises; cbn; try lia; try reflexivity.
  - intros C. vm_compute in C. discriminate C.
  - intros r [<-|[<-|[]]]; cbn; lia.
Qed.

Lemma fold_left_invariant_In {A B : Type} (P : A -> Prop) (f : A -> B -> A) (l : list B) (x : A) :
  (forall x b, In b l -> P x -> P (f x b)) -> P x -> P (fold_left f l x).
Proof.
  revert x. induction l as [|b l IH]; intros x Hf Hx; cbn; [assumption|].
  apply IH.
  - intros x' b' Hb. apply Hf. now right.
  - apply Hf; [now left | assumption].
Qed.

Lemma unique_In (y : Z) (l : list Z) : In y (unique l) -> In y l.
Proof.
  induction l as [|x l IH]; cbn; [tauto|].
  intros [->|H]; [now left|]. apply filter_In in H. right. now apply IH.
Qed.

Lemma index_populate_exact (sim : list SimRow) (df : DataFrame) :
  (forall r, In r sim -> In (Int (Operating_Year r)) (index df)) ->
  index (populate sim df) = index df.
Proof.
  intros H. unfold populate.
  apply (fold_left_invariant_In (fun x => index x = index df)); [|reflexivity].
  intros x y Hy E. apply unique_In, in_map_iff in Hy.
  destruct Hy as (r & <- & Hr). apply H in Hr. rewrite <- E in Hr.
  unfold populate_year. destruct (find _ sim); [|assumption].
  cbn [fold_left _POWERFLOW_COLUMNS_TO_ASSIGN]. assignments.
  rewrite !(add_label_present _ _ Hr). exact E.
Qed.

Lemma index_debt_tax_year_exact (a : Scenario) (p d : Q) (df : DataFrame) (y : Z) :
  In (Int y) (index df) ->
  ((y < debt_term_years a)%Z -> In (Int (y + 1)) (index df)) ->
  index (debt_tax_year a p d df y) = index df.
Proof.
  intros H1 H2. unfold debt_tax_year.
  destruct (Z.ltb_spec y (debt_term_years a)) as [L|L]; assignments.
  - rewrite !(add_label_present _ _ H1), (add_label_present _ _ (H2 L)).
    now rewrite !(add_label_present _ _ H1).
  - now rewrite !(add_label_present _ _ H1).
Qed.

Lemma index_debt_tax_capital_exact (a : Scenario) (p d : Q) (df : DataFrame) :
  (debt_term_years a <= 20)%Z ->
  incl (map Int years) (index df) ->
  index (debt_tax_capital a p d df) = index df.
Proof.
  intros Ht Hi. unfold debt_tax_capital.
  apply (fold_left_invariant_In (fun x => index x = index df)); [|reflexivity].
  intros x y Hy E. apply In_operating_list in Hy. rewrite <- E.
  apply index_debt_tax_year_exact; rewrite E.
  - apply Hi, In_years. lia.
  - intros L. apply Hi, In_years. lia.
Qed.

Lemma index_npv_column (a : Scenario) (df : DataFrame) (c : string) :
  index (npv_column a df c) =
  if has_npv_entry c then add_label (Str "NPV") (index df) else index df.
Proof.
  unfold npv_column, has_npv_entry.
  destruct (column_in c _CALCULATE_TOTALS); [reflexivity|].
  destruct (column_in c _EXCLUDE_FROM_NPV); [reflexivity|].
  destruct (negb _); reflexivity.
Qed.

Lemma add_label_idem (l : label) (ls : list label) :
  add_label l (add_label l ls) = add_label l ls.
Proof.
  apply add_label_present. apply add_label_In. now left.
Qed.

Lemma index_npv_fold_exact (a : Scenario) (cs : list string) (df : DataFrame) :
  index (fold_left (npv_column a) cs df) =
  if existsb has_npv_entry cs then add_label (Str "NPV") (index df)
  else index df.
Proof.
  revert df. induction cs as [|c cs IH]; intros df; cbn [fold_left existsb]; [reflexivity|].
  rewrite IH, index_npv_column.
  destruct (has_npv_entry c), (existsb has_npv_entry cs); cbn [orb];
    rewrite ?add_label_idem; reflexivity.
Qed.

Lemma index_npv_row_exact (a : Scenario) (df : DataFrame) :
  dated df -> incl powerflow_columns (columns df) ->
  index (npv_row a df) = (index df ++ [Str "NPV"])%list.
Proof.
  intros Hd Hc. unfold npv_row. rewrite index_npv_fold_exact.
  replace (existsb has_npv_entry (columns df)) with true.
  - unfold add_label. now rewrite (dated_label_in_Str df "NPV" Hd).
  - symmetry. apply existsb_exists. exists "Load Served (MWh)". split.
    + apply Hc. cbn. tauto.
    + reflexivity.
Qed.

Lemma index_round2 (df : DataFrame) : index (DataFrame_round2 df) = index df.
Proof. reflexivity. Qed.

Lemma year_index_default (sim : list SimRow) (a : Scenario) :
  well_formed sim a ->
  (debt_term_years a <= 20)%Z ->
  (forall r, In r sim -> (-1 <= Operating_Year r <= 20)%Z) ->
  exists df,
    calculate_pro_forma sim a = Ok df /\
    index df = (map Int (range (-1) 21) ++ [Str "NPV"])%list.
Proof.
  intros W Ht Hs.
  destruct (pro_forma_unrounded_ok sim a W) as (f2 & _ & Hi & Hc & Hd & _ & E).
  exists (DataFrame_round2 (npv_row a (before_npv a f2))).
  split; [apply calculate_pro_forma_round; exact E|].
  assert (I0 : index (frame0 sim a (renewable a)) = map Int years).
  { unfold frame0. assignments.
    rewrite index_populate_exact
      by (intros r Hr; apply (In_years (Operating_Year r)); now apply Hs).
    cbn [DataFrame_new index].
    now rewrite !add_label_present by (apply In_years; lia). }
  rewrite index_round2, index_npv_row_exact.
  - unfold before_npv. rewrite index_tax_and_cash_flow.
    rewrite index_debt_tax_capital_exact; [now rewrite Hi, I0 | assumption |].
    rewrite Hi, I0. apply incl_refl.
  - now apply dated_before_npv.
  - eapply incl_tran; [exact Hc | apply columns_before_npv].
Qed.

Lemma cell_round2 (df : DataFrame) (l : label) (c : string) :
  cell (DataFrame_round2 df) l c = option_map round2 (cell df l c).
Proof. reflexivity. Qed.

(** Claim C8, as amended.  Every unit rate is recorded negative,
    [-1 * base_rate * (1 + escalator/100)^(y-1)]; so for a positive base
    rate and a positive escalator each successive operating year's rate is
    strictly BELOW the prior year's (its magnitude strictly grows), and
    with a zero escalator it equals the prior year's.  Stated on the seven
    unit-rate columns of the table before the final rounding. *)
Theorem unit_rates_escalate_downwards (sim : list SimRow) (a : Scenario) :
  well_formed sim a ->
  exists u,
    pro_forma_unrounded sim a = Ok u /\
    calculate_pro_forma sim a = Ok (DataFrame_round2 u) /\
    forall c base esc, In (c, (base, esc)) (rate_columns a) ->
    forall y, (1 <= y <= 19)%Z ->
      exists r r',
        cell u (Int y) c = Some r /\
        cell u (Int (y + 1)) c = Some r' /\
        r == -1 * base * (1 + esc / 100) ^ (y - 1) /\
        r' == -1 * base * (1 + esc / 100) ^ y /\
        (0 < base -> 0 < esc -> r' < r /\ r < 0) /\
        (esc == 0 -> r' == r).
Proof.
  intros W. destruct (rate_cells sim a W) as (u & E & H).
  exists u. split; [exact E|]. split; [now apply calculate_pro_forma_round|].
  intros c base esc Hc y Hy.
  exists (unit_rate base esc y), (unit_rate base esc (y + 1)).
  split; [apply (H c base esc Hc); lia|].
  split; [apply (H c base esc Hc); lia|].
  split; [reflexivity|].
  split; [unfold unit_rate; now replace (y + 1 - 1)%Z with y by lia|].
  split.
  - intros Hb He. split; [apply unit_rate_decreases; (assumption || lia)|].
    now apply unit_rate_neg.
  - intros He. apply unit_rate_constant; (assumption || lia).
Qed.

(** Claim C8: the amended statement at the example scenario. *)
Lemma unit_rates_escalate_downwards_witness :
  well_formed two_rows example_scenario /\
  exists u,
    pro_forma_unrounded two_rows example_scenario = Ok u /\
    calculate_pro_forma two_rows example_scenario = Ok (DataFrame_round2 u) /\
    forall c base esc, In (c, (base, esc)) (rate_columns example_scenario) ->
    forall y, (1 <= y <= 19)%Z ->
      exists r r',
        cell u (Int y) c = Some r /\
        cell u (Int (y + 1)) c = Some r' /\
        r == -1 * base * (1 + esc / 100) ^ (y - 1) /\
        r' == -1 * base * (1 + esc / 100) ^ y /\
        (0 < base -> 0 < esc -> r' < r /\ r < 0) /\
        (esc == 0 -> r' == r).
Proof.
  split; [exact example_well_formed|].
  apply (unit_rates_escalate_downwards two_rows example_scenario example_well_formed).
Defined.

(** Claim C8 as stated fails: with fuel at 5 escalating by 3%, the Fuel
    Unit Cost is -5 in year 1 and -5.15 in year 2, which does not exceed
    -5. *)
Lemma fuel_unit_cost_does_not_exceed :
  exists df r r',
    calculate_pro_forma two_rows example_scenario = Ok df /\
    cell df (Int 1) "Fuel Unit Cost" = Some r /\
    cell df (Int 2) "Fuel Unit Cost" = Some r' /\
    0 < fuel_price_dollar_per_mmbtu example_scenario /\
    0 < fuel_escalator_pct example_scenario /\
    ~ r < r' /\
    ~ -1 * 5 * (1 + 3 / 100) ^ (1 - 1) < -1 * 5 * (1 + 3 / 100) ^ (2 - 1).
Proof.
  destruct (rate_cells two_rows example_scenario example_well_formed) as (u & E & H).
  assert (H1 := H "Fuel Unit Cost" 5 3 (or_introl eq_refl) 1%Z ltac:(lia)).
  assert (H2 := H "Fuel Unit Cost" 5 3 (or_introl eq_refl) 2%Z ltac:(lia)).
  exists (DataFrame_round2 u). do 2 eexists.
  split; [now apply calculate_pro_forma_round|].
  rewrite !cell_round2, H1, H2. cbn [option_map].
  split; [reflexivity|]. split; [reflexivity|].
  split; [reflexivity|]. split; [reflexivity|].
  split; intros C; vm_compute in C; discriminate C.
Qed.

(** Claim C5: the amended statement for a loan of 100 at 10% over two
    years. *)
Lemma loan_fully_amortizes_witness :
  0 < 1 # 10 /\ (1 <= 2)%Z /\
  exists p,
    PMT 100 (1 # 10) 2 = Ok p /\
    debt_outstanding 100 (1 # 10) p (Z.to_nat 2) == 0 /\
    100 == Qsum (fun k => p + interest_expense 100 (1 # 10) p k) (Z.to_nat 2) /\
    100 == Qsum (fun k => - principal_payment 100 (1 # 10) p k) (Z.to_nat 2).
Proof.
  split; [reflexivity|]. split; [lia|].
  apply (loan_fully_amortizes 100 (1 # 10) 2); [reflexivity | lia].
Defined.

(** Claim C4: the theorem at the example scenario, whose debt term is two
    years. *)
Lemma debt_service_every_operating_year_witness :
  well_formed two_rows example_scenario /\
  exists u p,
    pro_forma_unrounded two_rows example_scenario = Ok u /\
    calculate_pro_forma two_rows example_scenario = Ok (DataFrame_round2 u) /\
    fixed_debt_payment example_scenario = Ok p /\
    forall y, (1 <= y <= 20)%Z ->
      exists q,
        cell u (Int y) "Debt Service" = Some q /\ q == - p /\
        cell (DataFrame_round2 u) (Int y) "Debt Service" = Some (round2 q).
Proof.
  split; [exact example_well_formed|].
  apply (debt_service_every_operating_year two_rows example_scenario example_well_formed).
Defined.

(** Claim C6: the amended statement at the example scenario. *)
Lemma npv_row_entries_witness :
  well_formed two_rows example_scenario /\
  exists u,
    pro_forma_unrounded two_rows example_scenario = Ok u /\
    calculate_pro_forma two_rows example_scenario = Ok (DataFrame_round2 u) /\
    forall c, In c (columns u) ->
      (In c _CALCULATE_TOTALS ->
         cell u (Str "NPV") c = Some (column_total u c)) /\
      (In c _EXCLUDE_FROM_NPV -> cell u (Str "NPV") c = None) /\
      (c = "Operating Year" -> cell u (Str "NPV") c = None) /\
      (~ In c _CALCULATE_TOTALS -> ~ In c _EXCLUDE_FROM_NPV ->
       c <> "Operating Year" ->
         cell u (Str "NPV") c = Some (column_npv example_scenario u c)) /\
      cell (DataFrame_round2 u) (Str "NPV") c
        = option_map round2 (cell u (Str "NPV") c).
Proof.
  split; [exact example_well_formed|].
  apply (npv_row_entries two_rows example_scenario example_well_formed).
Defined.

Lemma find_app_first (s1 s2 : list SimRow) (r : SimRow) (y : Z) :
  In r s1 -> Operating_Year r = y ->
  exists first,
    find (fun x => (Operating_Year x =? y)%Z) (s1 ++ s2) = Some first /\
    In first s1 /\ Operating_Year first = y.
Proof.
  intros H E. induction s1 as [|x s1 IH]; [destruct H|].
  cbn [app find]. destruct (Z.eqb_spec (Operating_Year x) y) as [Ex|Ex].
  - exists x. split; [reflexivity|]. split; [now left | assumption].
  - destruct H as [->|H]; [contradiction|].
    destruct (IH H) as (first & F & I & Y).
    exists first. split; [exact F|]. split; [now right | assumption].
Qed.

(** Claim C10.  A row of [simulation_data] whose Operating Year already
    occurs in an earlier row changes nothing: the call returns the same
    result, table or error, as without that row; and when a table is
    returned, the energy columns of that year hold the values of the first
    row of that year (rounded to two decimals). *)
Theorem duplicate_operating_years (a : Scenario) (s1 s2 : list SimRow) (r r' : SimRow) :
  In r s1 -> Operating_Year r' = Operating_Year r ->
  calculate_pro_forma (s1 ++ r' :: s2) a = calculate_pro_forma (s1 ++ s2) a /\
  (well_formed (s1 ++ r' :: s2) a ->
   exists first df,
     find (fun x => (Operating_Year x =? Operating_Year r')%Z) (s1 ++ r' :: s2)
       = Some first /\
     In first s1 /\
     calculate_pro_forma (s1 ++ r' :: s2) a = Ok df /\
     forall c, In c _POWERFLOW_COLUMNS_TO_ASSIGN ->
       cell df (Int (Operating_Year r')) c = Some (round2 (item first c))).
Proof.
  intros H E. split; [now apply (pro_forma_duplicate a s1 s2 r r')|].
  intros W.
  destruct (find_app_first s1 (r' :: s2) r (Operating_Year r') H (eq_sym E))
    as (first & F & I & _).
  destruct (powerflow_cells (s1 ++ r' :: s2) a W) as (u & Eu & Hu).
  exists first, (DataFrame_round2 u).
  split; [exact F|]. split; [exact I|].
  split; [now apply calculate_pro_forma_round|].
  intros c Hc. rewrite cell_round2, (Hu _ first c F Hc). reflexivity.
Qed.

(** Claim C10: the theorem for a second row of operating year 1. *)
Lemma duplicate_operating_years_witness :
  In (sim_row 1 10) [sim_row 1 10] /\
  Operating_Year (sim_row 1 99) = Operating_Year (sim_row 1 10) /\
  calculate_pro_forma ([sim_row 1 10] ++ sim_row 1 99 :: [sim_row 2 20])
    example_scenario
  = calculate_pro_forma ([sim_row 1 10] ++ [sim_row 2 20]) example_scenario /\
  exists first df,
    find (fun x => (Operating_Year x =? Operating_Year (sim_row 1 99))%Z)
         ([sim_row 1 10] ++ sim_row 1 99 :: [sim_row 2 20]) = Some first /\
    In first [sim_row 1 10] /\
    calculate_pro_forma ([sim_row 1 10] ++ sim_row 1 99 :: [sim_row 2 20])
      example_scenario = Ok df /\
    forall c, In c _POWERFLOW_COLUMNS_TO_ASSIGN ->
      cell df (Int (Operating_Year (sim_row 1 99))) c
      = Some (round2 (item first c)).
Proof.
  assert (I : In (sim_row 1 10) [sim_row 1 10]) by (now left).
  assert (Y : Operating_Year (sim_row 1 99) = Operating_Year (sim_row 1 10))
    by reflexivity.
  destruct (duplicate_operating_years example_scenario [sim_row 1 10]
              [sim_row 2 20] (sim_row 1 10) (sim_row 1 99) I Y) as [D1 D2].
  split; [exact I|]. split; [exact Y|]. split; [exact D1|].
  apply D2. split.
  - reflexivity.
  - cbn. lia.
  - intros C. vm_compute in C. discriminate C.
  - cbn. lia.
  - discriminate.
Defined.

(** * Further properties of the code *)

(** ** calculate_npv *)

Lemma fold_left_Qplus (l : list Q) (x : Q) :
  fold_left Qplus l x == x + fold_left Qplus l 0.
Proof.
  revert x. induction l as [|y l IH]; intros x; cbn [fold_left].
  - ring.
  - rewrite IH, (IH (0 + y)). ring.
Qed.

Lemma calculate_npv_cons (tv : Z * Cell) (values : list (Z * Cell)) (rate : Q) (n : Z) :
  calculate_npv (tv :: values) rate n
  == discounted rate n tv + calculate_npv values rate n.
Proof.
  unfold calculate_npv, discounted.
  destruct tv as [t [v|]]; cbn [map fold_left fillna fst snd];
    rewrite fold_left_Qplus; unfold Qdiv; ring.
Qed.







(** ** calculate_capex *)

Lemma Qdiv_nonneg (x y : Q) : 0 <= x -> 0 < y -> 0 <= x / y.
Proof. intros Hx Hy. apply Qle_shift_div_l; [assumption | lra]. Qed.

Lemma default_inputs_nonnegative : nonnegative_inputs default_inputs.
Proof. unfold nonnegative_inputs, default_inputs; cbn; repeat split; discriminate. Qed.



(** ** calculate_pro_forma: the errors it raises *)

Lemma hard_capex_zero_raises (sim : list SimRow) (a : Scenario) :
  total_hard_capex a == 0 ->
  calculate_pro_forma sim a = Raise ZeroDivisionError.
Proof.
  intros H. unfold calculate_pro_forma, pro_forma_unrounded.
  destruct (fixed_debt_payment a) as [p|e] eqn:E; cbn [bind].
  - unfold renewable_proportion_of_hard_capex.
    now rewrite (truediv_zero _ _ H).
  - now rewrite (fixed_debt_payment_raises a e E).
Qed.

Lemma loc_set_labels_raises (df : DataFrame) (ls : list label) (c : string) (v : Cell) (e : error) :
  loc_set_labels df ls c v = Raise e -> e = KeyError.
Proof. unfold loc_set_labels. destruct (forallb _ ls); congruence. Qed.

Lemma construction_period_raises (a : Scenario) (cpy : Q) (df : DataFrame) (e : error) :
  construction_period a cpy df = Raise e -> e = KeyError.
Proof.
  unfold construction_period.
  destruct (loc_set_labels df _ _ _) as [d1|e1] eqn:E1; cbn [bind];
    [|intros H; inversion H; subst; now apply loc_set_labels_raises in E1].
  destruct (loc_set_labels d1 _ _ _) as [d2|e2] eqn:E2; cbn [bind];
    [|intros H; inversion H; subst; now apply loc_set_labels_raises in E2].
  apply loc_set_labels_raises.
Qed.

Lemma getitem_raises (df : DataFrame) (c : string) (e : error) :
  getitem df c = Raise e -> e = KeyError.
Proof. unfold getitem. destruct (column_in c _); congruence. Qed.

Lemma costs_and_earnings_raises (a : Scenario) (df : DataFrame) (e : error) :
  costs_and_earnings a df = Raise e -> e = KeyError.
Proof.
  unfold costs_and_earnings.
  destruct (getitem _ "Generator Fuel Input (MMBtu)") as [s1|e1] eqn:E1; cbn [bind];
    [|intros H; inversion H; subst; now apply getitem_raises in E1].
  destruct (getitem _ "Generator Output (MWh)") as [s2|e2] eqn:E2; cbn [bind];
    [|intros H; inversion H; subst; now apply getitem_raises in E2].
  destruct (getitem _ "Load Served (MWh)") as [s3|e3] eqn:E3; cbn [bind];
    [|intros H; inversion H; subst; now apply getitem_raises in E3].
  discriminate.
Qed.



(** The frame when the construction period starts, without powerflow
    rows. *)
Lemma populate_nil (df : DataFrame) : populate [] df = df.
Proof. reflexivity. Qed.









(** Cells no assignment reaches. *)

Lemma populate_year_other_column (sim : list SimRow) (df : DataFrame) (y : Z) (l : label) (c : string) :
  ~ In c powerflow_columns ->
  cell (populate_year sim df y) l c = cell df l c.
Proof.
  intros H. unfold populate_year. destruct (find _ sim); [|reflexivity].
  cbn [fold_left _POWERFLOW_COLUMNS_TO_ASSIGN]. assignments. now other_column H.
Qed.

Lemma populate_other_column (sim : list SimRow) (df : DataFrame) (l : label) (c : string) :
  ~ In c powerflow_columns ->
  cell (populate sim df) l c = cell df l c.
Proof.
  intros H. unfold populate.
  apply (fold_left_invariant (fun x => cell x l c = cell df l c)); [|reflexivity].
  intros x y E. now rewrite populate_year_other_column.
Qed.

Lemma populate_other_row (sim : list SimRow) (df : DataFrame) (y : Z) (c : string) :
  (forall r, In r sim -> Operating_Year r <> y) ->
  cell (populate sim df) (Int y) c = cell df (Int y) c.
Proof.
  intros H. unfold populate.
  apply (fold_left_invariant_In (fun x => cell x (Int y) c = cell df (Int y) c));
    [|reflexivity].
  intros x y' Hy E. rewrite populate_year_other_row; [exact E|].
  apply unique_In, in_map_iff in Hy. destruct Hy as (r & <- & Hr). now apply H.
Qed.

Lemma frame0_blank (sim : list SimRow) (a : Scenario) (ren : Q) (l : label) (c : string) :
  ~ In c powerflow_columns ->
  c <> "Debt Outstanding, Yr Start" -> c <> "Federal ITC" ->
  cell (frame0 sim a ren) l c = None.
Proof.
  intros H1 H2 H3. unfold frame0. assignments.
  replace (String.eqb "Federal ITC" c) with false
    by (symmetry; apply String.eqb_neq; congruence).
  replace (String.eqb "Debt Outstanding, Yr Start" c) with false
    by (symmetry; apply String.eqb_neq; congruence).
  cbn [andb]. now rewrite populate_other_column.
Qed.

Lemma frame0_blank_row (sim : list SimRow) (a : Scenario) (ren : Q) (y : Z) (c : string) :
  y <> 1%Z -> (forall r, In r sim -> Operating_Year r <> y) ->
  cell (frame0 sim a ren) (Int y) c = None.
Proof.
  intros H1 H2. unfold frame0. assignments. cbn [label_eqb].
  replace (1 =? y)%Z with false by lia. rewrite !andb_false_r.
  now rewrite populate_other_row.
Qed.

Lemma construction_frame_other_row (a : Scenario) (cpy : Q) (df : DataFrame) (l : label) (c : string) :
  label_in l (construction_years a) = false ->
  cell (construction_frame a cpy df) l c = cell df l c.
Proof.
  intros H. unfold construction_frame. assignments.
  now rewrite H, !andb_false_r.
Qed.

Lemma unit_rates_other_row (a : Scenario) (df : DataFrame) (l : label) (c : string) :
  operating_years l && label_in l (index df) = false ->
  cell (unit_rates a df) l c = cell df l c.
Proof.
  intros H. unfold unit_rates. assignments.
  now rewrite H, !andb_false_r.
Qed.

Lemma costs_and_earnings_other_row (a : Scenario) (df df' : DataFrame) (l : label) (c : string) :
  costs_and_earnings a df = Ok df' ->
  operating_years l && label_in l (index df) = false ->
  cell df' l c = cell df l c.
Proof.
  unfold costs_and_earnings.
  destruct (getitem _ "Generator Fuel Input (MMBtu)") as [s1|e1]; cbn [bind]; [|discriminate].
  destruct (getitem _ "Generator Output (MWh)") as [s2|e2]; cbn [bind]; [|discriminate].
  destruct (getitem _ "Load Served (MWh)") as [s3|e3]; cbn [bind]; [|discriminate].
  intros E H. inversion E; subst df'. clear E. assignments.
  now rewrite H, !andb_false_r.
Qed.

Lemma debt_tax_year_other_row (a : Scenario) (p d : Q) (df : DataFrame) (y : Z) (l : label) (c : string) :
  label_eqb (Int y) l = false ->
  c <> "Debt Outstanding, Yr Start" ->
  cell (debt_tax_year a p d df y) l c = cell df l c.
Proof.
  intros H N. unfold debt_tax_year.
  assert (S : String.eqb "Debt Outstanding, Yr Start" c = false)
    by (apply String.eqb_neq; congruence).
  destruct (y <? debt_term_years a)%Z; assignments;
    rewrite ?S, H, ?andb_false_r; cbn [andb]; reflexivity.
Qed.

Lemma debt_tax_capital_other_row (a : Scenario) (p d : Q) (df : DataFrame) (l : label) (c : string) :
  (forall y, (1 <= y <= 20)%Z -> l <> Int y) ->
  c <> "Debt Outstanding, Yr Start" ->
  cell (debt_tax_capital a p d df) l c = cell df l c.
Proof.
  intros H N. unfold debt_tax_capital.
  apply (fold_left_invariant_In (fun x => cell x l c = cell df l c)); [|reflexivity].
  intros x y Hy E. apply In_operating_list in Hy.
  rewrite debt_tax_year_other_row; [exact E | | exact N].
  destruct (label_eqb (Int y) l) eqn:B; [|reflexivity].
  apply label_eqb_eq in B. symmetry in B. now apply H in B.
Qed.

(** A debt term beyond the twenty operating years. *)

Lemma index_debt_tax_year_last (a : Scenario) (p d : Q) (df : DataFrame) :
  (20 < debt_term_years a)%Z ->
  index df = map Int years ->
  index (debt_tax_year a p d df 20) = (map Int years ++ [Int 21])%list.
Proof.
  intros Ht E. unfold debt_tax_year.
  destruct (Z.ltb_spec 20 (debt_term_years a)) as [L|L]; [|lia].
  assignments. rewrite E.
  change (20 + 1)%Z with 21%Z.
  rewrite !(add_label_present (Int 20) (map Int years)) by (apply In_years; lia).
  assert (A : add_label (Int 21) (map Int years) = (map Int years ++ [Int 21])%list)
    by reflexivity.
  rewrite A.
  rewrite !(add_label_present (Int 20)) by (apply in_or_app; left; apply In_years; lia).
  reflexivity.
Qed.

Lemma index_debt_tax_capital_long (a : Scenario) (p d : Q) (df : DataFrame) :
  (20 < debt_term_years a)%Z ->
  index df = map Int years ->
  index (debt_tax_capital a p d df) = (map Int years ++ [Int 21])%list.
Proof.
  intros Ht E. unfold debt_tax_capital. rewrite operating_list.
  change [1; 2; 3; 4; 5; 6; 7; 8; 9; 10; 11; 12; 13; 14; 15; 16; 17; 18; 19; 20]%Z
    with ([1; 2; 3; 4; 5; 6; 7; 8; 9; 10; 11; 12; 13; 14; 15; 16; 17; 18; 19] ++ [20])%list%Z.
  remember [1; 2; 3; 4; 5; 6; 7; 8; 9; 10; 11; 12; 13; 14; 15; 16; 17; 18; 19]%Z
    as early eqn:Ee.
  rewrite fold_left_app. cbn [fold_left].
  apply index_debt_tax_year_last; [assumption|].
  apply (fold_left_invariant_In (fun x => index x = map Int years)); [|exact E].
  intros x y Hy Ex.
  assert (Y : (1 <= y <= 19)%Z).
  { subst early. cbn [In] in Hy. lia. }
  rewrite <- Ex. apply index_debt_tax_year_exact; rewrite Ex.
  - apply In_years. lia.
  - intros _. apply In_years. lia.
Qed.

Lemma index_operating_frame (sim : list SimRow) (a : Scenario) :
  index (unit_rates a (frame1 sim a)) = index (frame0 sim a (renewable a)).
Proof. reflexivity. Qed.

Lemma index_frame0_exact (sim : list SimRow) (a : Scenario) (ren : Q) :
  (forall r, In r sim -> (-1 <= Operating_Year r <= 20)%Z) ->
  index (frame0 sim a ren) = map Int years.
Proof.
  intros Hs. unfold frame0. assignments.
  rewrite index_populate_exact
    by (intros r Hr; apply (In_years (Operating_Year r)); now apply Hs).
  cbn [DataFrame_new index].
  now rewrite !add_label_present by (apply In_years; lia).
Qed.

(** A row past the year index holds nothing when the debt loop starts. *)
Lemma late_row_blank (sim : list SimRow) (a : Scenario) (f2 : DataFrame) (y : Z) (c : string) :
  (forall r, In r sim -> (-1 <= Operating_Year r <= 20)%Z) ->
  costs_and_earnings a (unit_rates a (frame1 sim a)) = Ok f2 ->
  (20 < y)%Z ->
  cell f2 (Int y) c = None.
Proof.
  intros Hs E Hy.
  assert (L : label_in (Int y) (index (frame0 sim a (renewable a))) = false).
  { rewrite (index_frame0_exact sim a _ Hs). apply label_in_false.
    intros H. apply In_years in H. lia. }
  rewrite (costs_and_earnings_other_row a _ f2 (Int y) c E)
    by (rewrite index_operating_frame, L; apply andb_false_r).
  rewrite unit_rates_other_row
    by (unfold frame1, construction_frame; assignments; rewrite L; apply andb_false_r).
  unfold frame1. rewrite construction_frame_other_row.
  - apply frame0_blank_row; [lia|]. intros r Hr. apply Hs in Hr. lia.
  - apply label_in_false. intros H. apply In_construction_years in H.
    destruct H as (y' & Ey & Hy'). inversion Ey. lia.
Qed.

Lemma tax_benefit_cell (a : Scenario) (df : DataFrame) (l : label) :
  cell (tax_and_cash_flow a df) l "Tax Benefit (Liability)" =
  if label_in l (index df)
  then (num (-1) * (cell df l "Taxable Income"
                    * num (combined_tax_rate_pct a / 100))
        + fillna 0 (cell df l "Federal ITC"))%cell
  else cell df l "Tax Benefit (Liability)".
Proof. unfold tax_and_cash_flow. frame. reflexivity. Qed.

Lemma cash_flow_cell (a : Scenario) (df : DataFrame) (l : label) :
  cell (tax_and_cash_flow a df) l "After-Tax Net Equity Cash Flow" =
  if label_in l (index df)
  then (fillna 0 (cell df l "EBITDA")
        + fillna 0 (cell df l "Debt Service")
        + fillna 0 (cell (tax_and_cash_flow a df) l "Tax Benefit (Liability)")
        + fillna 0 (cell df l "Equity Capex"))%cell
  else cell df l "After-Tax Net Equity Cash Flow".
Proof. unfold tax_and_cash_flow. frame. reflexivity. Qed.


Lemma long_term_well_formed : well_formed two_rows (with_debt_term 25 example_scenario).
Proof.
  split.
  - reflexivity.
  - cbn. lia.
  - intros H. vm_compute in H. discriminate H.
  - cbn. lia.
  - discriminate.
Qed.


(** ** The debt and tax loop, row by row *)

(** What one pass of the loop leaves in its own row. *)
Lemma debt_tax_year_row (a : Scenario) (p d : Q) (df : DataFrame) (y : Z) :
  let bal := cell df (Int y) "Debt Outstanding, Yr Start" in
  let interest := (num (-1) * bal * num (interest_rate a))%cell in
  let schedule :=
    num (if (y <=? Z.of_nat (List.length (depreciation_schedule a)))%Z
         then nth (Z.to_nat (y - 1)) (depreciation_schedule a) 0
         else 0) in
  let macrs := (num (-1) * (schedule / num 100) * num d)%cell in
  let df' := debt_tax_year a p d df y in
  cell df' (Int y) "Interest Expense" = interest /\
  cell df' (Int y) "Debt Service" = num (-1 * p) /\
  cell df' (Int y) "Principal Payment" = (num (-1 * p) - interest)%cell /\
  cell df' (Int y) "Depreciation Schedule" = schedule /\
  cell df' (Int y) "Depreciation (MACRS)" = macrs /\
  cell df' (Int y) "Taxable Income"
    = (cell df (Int y) "EBITDA" + macrs + interest)%cell /\
  cell df' (Int y) "Interest Expense (Tax)" = interest.
Proof.
  cbn zeta. unfold debt_tax_year.
  destruct (y <? debt_term_years a)%Z; frame; cbn [label_eqb];
    rewrite ?Z.eqb_refl; cbn [andb]; repeat split; reflexivity.
Qed.

Lemma later_years_keep_row (a : Scenario) (p d : Q) (i m : nat) (c : string) (df : DataFrame) :
  c <> "Debt Outstanding, Yr Start" ->
  cell (fold_left (debt_tax_year a p d) (map year_of (seq (S i) m)) df)
       (Int (year_of i)) c
  = cell df (Int (year_of i)) c.
Proof.
  intros N.
  apply (fold_left_invariant_In
           (fun x => cell x (Int (year_of i)) c = cell df (Int (year_of i)) c));
    [|reflexivity].
  intros x y Hy E. rewrite debt_tax_year_other_row; [exact E | | exact N].
  apply in_map_iff in Hy. destruct Hy as (j & <- & Hj). apply in_seq in Hj.
  cbn [label_eqb]. unfold year_of. lia.
Qed.

Lemma operating_list_split (i : nat) :
  (i < 20)%nat ->
  filter (fun y => (0 <? y)%Z) years
  = (map year_of (seq 0 i) ++ year_of i :: map year_of (seq (S i) (19 - i)))%list.
Proof.
  intros H. rewrite operating_list.
  change [1; 2; 3; 4; 5; 6; 7; 8; 9; 10; 11; 12; 13; 14; 15; 16; 17; 18; 19; 20]%Z
    with (map year_of (seq 0 20)).
  replace 20%nat with (i + S (19 - i))%nat at 1 by lia.
  rewrite seq_app, map_app. cbn [seq map plus]. reflexivity.
Qed.

Lemma debt_tax_capital_row (a : Scenario) (p d : Q) (df : DataFrame) (i : nat) (c : string) :
  (i < 20)%nat -> c <> "Debt Outstanding, Yr Start" ->
  cell (debt_tax_capital a p d df) (Int (year_of i)) c
  = cell (debt_tax_year a p d (before_year a p d i df) (year_of i)) (Int (year_of i)) c.
Proof.
  intros Hi N. unfold debt_tax_capital, before_year.
  rewrite (operating_list_split i Hi), fold_left_app.
  change (fold_left ?f (?y :: ?l) ?x) with (fold_left f l (f x y)).
  now apply later_years_keep_row.
Qed.

Lemma balance_after_term (a : Scenario) (p d : Q) (j : Z) (ys : list Z) (df : DataFrame) :
  (debt_term_years a < j)%Z ->
  cell (fold_left (debt_tax_year a p d) ys df) (Int j) "Debt Outstanding, Yr Start"
  = cell df (Int j) "Debt Outstanding, Yr Start".
Proof.
  intros H.
  apply (fold_left_invariant
           (fun x => cell x (Int j) "Debt Outstanding, Yr Start"
                     = cell df (Int j) "Debt Outstanding, Yr Start"));
    [|reflexivity].
  intros x y E.
  destruct (debt_columns_year a p d x y (Int j)) as (_ & _ & ->).
  cbn [label_eqb].
  destruct (Z.ltb_spec y (debt_term_years a)) as [L|L]; cbn [andb]; [|exact E].
  replace (y + 1 =? j)%Z with false by lia. exact E.
Qed.

Lemma before_year_balance (a : Scenario) (p d : Q) (df : DataFrame) (i : nat) :
  (1 <= debt_term_years a)%Z ->
  cell df (Int 1) "Debt Outstanding, Yr Start" = Some (total_debt a) ->
  (forall j, (1 < j)%Z -> cell df (Int j) "Debt Outstanding, Yr Start" = None) ->
  cell (before_year a p d i df) (Int (year_of i)) "Debt Outstanding, Yr Start"
  = opening_balance a p i.
Proof.
  intros Hn H1 Hb. unfold opening_balance, before_year.
  destruct (Z.ltb_spec (Z.of_nat i) (debt_term_years a)) as [L|L].
  - destruct (debt_schedule_loop a p d df i H1) as [Hd _]. cbn zeta in Hd.
    apply Hd; [lia | assumption].
  - rewrite balance_after_term by (unfold year_of; lia).
    apply Hb. unfold year_of. lia.
Qed.

(** ** Costs and earnings of an operating year *)

Lemma earnings_cells (a : Scenario) (df df' : DataFrame) (l : label) :
  costs_and_earnings a df = Ok df' ->
  operating_years l && label_in l (index df) = true ->
  let fixed :=
    ((cell df l "Solar Fixed O&M Rate" * num (solar_pv_capacity_mw a) * num 1000
      + cell df l "Battery Fixed O&M Rate" * num (bess_max_power_mw a) * num 1000
      + cell df l "Generator Fixed O&M Rate" * num (generator_capacity_mw a)
        * num 1000
      + cell df l "BOS Fixed O&M Rate" * num (datacenter_load_mw a) * num 1000)
     / num 1000000
     + cell df l "Soft O&M Rate" / num 100 * num (total_hard_capex a))%cell in
  let fuel :=
    (cell df l "Fuel Unit Cost" * cell df l "Generator Fuel Input (MMBtu)"
     / num 1000000)%cell in
  let variable :=
    (cell df l "Generator Variable O&M Rate" * cell df l "Generator Output (MWh)"
     * num 1000 / num 1000000)%cell in
  let revenue :=
    (num (lcoe_dollar_per_mwh a) * cell df l "Load Served (MWh)"
     / num 1000000)%cell in
  cell df' l "Fixed O&M Cost" = fixed /\
  cell df' l "Fuel Cost" = fuel /\
  cell df' l "Variable O&M Cost" = variable /\
  cell df' l "Total Operating Costs" = (fuel + fixed + variable)%cell /\
  cell df' l "LCOE" = num (lcoe_dollar_per_mwh a) /\
  cell df' l "Revenue" = revenue /\
  cell df' l "EBITDA" = (revenue + (fuel + fixed + variable))%cell.
Proof.
  unfold costs_and_earnings, getitem.
  destruct (column_in "Generator Fuel Input (MMBtu)" _); cbn [bind]; [|discriminate].
  destruct (column_in "Generator Output (MWh)" _); cbn [bind]; [|discriminate].
  destruct (column_in "Load Served (MWh)" _); cbn [bind]; [|discriminate].
  intros E H. inversion E; subst df'. clear E. cbn zeta. frame.
  rewrite H. repeat split; reflexivity.
Qed.

Lemma later_years_keep_balance (a : Scenario) (p d : Q) (i m : nat) (df : DataFrame) :
  cell (fold_left (debt_tax_year a p d) (map year_of (seq i m)) df)
       (Int (year_of i)) "Debt Outstanding, Yr Start"
  = cell df (Int (year_of i)) "Debt Outstanding, Yr Start".
Proof.
  apply (fold_left_invariant_In
           (fun x => cell x (Int (year_of i)) "Debt Outstanding, Yr Start"
                     = cell df (Int (year_of i)) "Debt Outstanding, Yr Start"));
    [|reflexivity].
  intros x y Hy E.
  destruct (debt_columns_year a p d x y (Int (year_of i))) as (_ & _ & ->).
  apply in_map_iff in Hy. destruct Hy as (j & <- & Hj). apply in_seq in Hj.
  cbn [label_eqb].
  replace (year_of j + 1 =? year_of i)%Z with false by (unfold year_of; lia).
  rewrite andb_false_r. exact E.
Qed.

Lemma debt_tax_capital_balance (a : Scenario) (p d : Q) (df : DataFrame) (i : nat) :
  (i < 20)%nat ->
  cell (debt_tax_capital a p d df) (Int (year_of i)) "Debt Outstanding, Yr Start"
  = cell (before_year a p d i df) (Int (year_of i)) "Debt Outstanding, Yr Start".
Proof.
  intros Hi. unfold debt_tax_capital, before_year.
  rewrite (operating_list_split i Hi), fold_left_app.
  change (year_of i :: map year_of (seq (S i) (19 - i)))
    with (map year_of (seq i (S (19 - i)))).
  apply later_years_keep_balance.
Qed.

Lemma before_year_other (a : Scenario) (p d : Q) (i : nat) (df : DataFrame) (l : label) (c : string) :
  ~ In c debt_tax_columns ->
  cell (before_year a p d i df) l c = cell df l c.
Proof.
  intros H. unfold before_year.
  apply (fold_left_invariant (fun x => cell x l c = cell df l c)); [|reflexivity].
  intros x y E. now rewrite debt_tax_year_other.
Qed.

Lemma frame0_balance_blank (sim : list SimRow) (a : Scenario) (ren : Q) (l : label) :
  l <> Int 1 ->
  cell (frame0 sim a ren) l "Debt Outstanding, Yr Start" = None.
Proof.
  intros H. unfold frame0. frame.
  replace (label_eqb (Int 1) l) with false.
  - rewrite populate_other_column; [reflexivity|].
    intros C. apply column_in_In in C. discriminate C.
  - symmetry. destruct (label_eqb (Int 1) l) eqn:B; [|reflexivity].
    apply label_eqb_eq in B. congruence.
Qed.

Lemma frame0_credit (sim : list SimRow) (a : Scenario) (ren : Q) (l : label) :
  cell (frame0 sim a ren) l "Federal ITC"
  = if label_eqb (Int 1) l then Some (tax_credit_amount a ren) else None.
Proof.
  unfold frame0. frame. destruct (label_eqb (Int 1) l); [reflexivity|].
  rewrite populate_other_column; [reflexivity|].
  intros C. apply column_in_In in C. discriminate C.
Qed.

Section TableRows.
Variable sim : list SimRow.
Variable a : Scenario.
Variable f2 : DataFrame.
Hypothesis debt_term : (1 <= debt_term_years a)%Z.
Hypothesis f2_index : index f2 = index (frame0 sim a (renewable a)).
Hypothesis f2_frame :
  forall l c, ~ In c earnings_columns ->
              cell f2 l c = cell (unit_rates a (frame1 sim a)) l c.

Lemma f2_balance (l : label) :
  cell f2 l "Debt Outstanding, Yr Start"
  = if label_eqb (Int 1) l then Some (total_debt a) else None.
Proof.
  rewrite f2_frame by (intros H; apply column_in_In in H; discriminate H).
  rewrite unit_rates_other by (intros H; apply column_in_In in H; discriminate H).
  unfold frame1.
  rewrite construction_frame_other by (intros H; apply column_in_In in H; discriminate H).
  destruct (label_eqb (Int 1) l) eqn:B.
  - apply label_eqb_eq in B. subst l. unfold frame0. frame. reflexivity.
  - apply frame0_balance_blank. intros ->. cbn in B. discriminate B.
Qed.

Lemma f2_credit (l : label) :
  cell f2 l "Federal ITC"
  = if label_eqb (Int 1) l then Some (tax_credit_amount a (renewable a)) else None.
Proof.
  rewrite f2_frame by (intros H; apply column_in_In in H; discriminate H).
  rewrite unit_rates_other by (intros H; apply column_in_In in H; discriminate H).
  unfold frame1.
  rewrite construction_frame_other by (intros H; apply column_in_In in H; discriminate H).
  apply frame0_credit.
Qed.

Lemma f2_equity (l : label) :
  cell f2 l "Equity Capex"
  = if label_in l (construction_years a)
    then Some (-1 * share a * (1 - leverage_pct a / 100)) else None.
Proof.
  rewrite f2_frame by (intros H; apply column_in_In in H; discriminate H).
  rewrite unit_rates_other by (intros H; apply column_in_In in H; discriminate H).
  unfold frame1, construction_frame. frame.
  destruct (label_in l (construction_years a)); [reflexivity|].
  apply frame0_blank; try discriminate.
  intros C. apply column_in_In in C. discriminate C.
Qed.

Lemma dtc_index (y : Z) : (-1 <= y <= 20)%Z -> label_in (Int y) (index (debt_tax_capital a (payment a) (amount_that_is_depreciable a (renewable a)) f2)) = true.
Proof.
  intros H. apply label_in_In.
  apply index_debt_tax_capital. rewrite f2_index.
  apply index_frame0. now apply In_years.
Qed.

Lemma u_debt_column (l : label) (c : string) :
  not_NPV l = true -> In c debt_tax_columns -> cell (npv_row a (before_npv a f2)) l c = cell (debt_tax_capital a (payment a) (amount_that_is_depreciable a (renewable a)) f2) l c.
Proof.
  intros Hl Hc. rewrite npv_row_dated by assumption.
  unfold before_npv. apply tax_and_cash_flow_other.
  cbn [debt_tax_columns In] in Hc. intros C.
  repeat (destruct Hc as [Hc|Hc]; [subst c; apply column_in_In in C; discriminate C|]).
  contradiction.
Qed.

Lemma u_early_column (l : label) (c : string) :
  not_NPV l = true -> ~ In c debt_tax_columns -> ~ In c cash_flow_columns ->
  cell (npv_row a (before_npv a f2)) l c = cell f2 l c.
Proof.
  intros Hl H1 H2. rewrite npv_row_dated by assumption.
  now apply before_npv_other.
Qed.

Lemma dtc_early_column (l : label) (c : string) :
  ~ In c debt_tax_columns -> cell (debt_tax_capital a (payment a) (amount_that_is_depreciable a (renewable a)) f2) l c = cell f2 l c.
Proof. intros H. now apply debt_tax_capital_other. Qed.

Lemma u_tax_benefit (y : Z) :
  (-1 <= y <= 20)%Z ->
  cell (npv_row a (before_npv a f2)) (Int y) "Tax Benefit (Liability)"
  = (num (-1) * (cell (npv_row a (before_npv a f2)) (Int y) "Taxable Income"
                 * num (combined_tax_rate_pct a / 100))
     + fillna 0 (cell (npv_row a (before_npv a f2)) (Int y) "Federal ITC"))%cell.
Proof.
  intros H.
  rewrite (u_debt_column (Int y) "Taxable Income") by (cbn; tauto).
  rewrite (u_early_column (Int y) "Federal ITC")
    by (try reflexivity; intros C; apply column_in_In in C; discriminate C).
  rewrite <- (dtc_early_column (Int y) "Federal ITC")
    by (intros C; apply column_in_In in C; discriminate C). rewrite npv_row_dated by reflexivity.
  unfold before_npv. rewrite tax_benefit_cell.
  now rewrite (dtc_index y H).
Qed.

Lemma u_cash_flow (y : Z) :
  (-1 <= y <= 20)%Z ->
  cell (npv_row a (before_npv a f2)) (Int y) "After-Tax Net Equity Cash Flow"
  = (fillna 0 (cell (npv_row a (before_npv a f2)) (Int y) "EBITDA")
     + fillna 0 (cell (npv_row a (before_npv a f2)) (Int y) "Debt Service")
     + fillna 0 (cell (npv_row a (before_npv a f2)) (Int y) "Tax Benefit (Liability)")
     + fillna 0 (cell (npv_row a (before_npv a f2)) (Int y) "Equity Capex"))%cell.
Proof.
  intros H.
  rewrite (u_debt_column (Int y) "Debt Service") by (cbn; tauto).
  rewrite (u_early_column (Int y) "EBITDA")
    by (try reflexivity; intros C; apply column_in_In in C; discriminate C).
  rewrite (u_early_column (Int y) "Equity Capex")
    by (try reflexivity; intros C; apply column_in_In in C; discriminate C).
  rewrite <- (dtc_early_column (Int y) "EBITDA")
    by (intros C; apply column_in_In in C; discriminate C).
  rewrite <- (dtc_early_column (Int y) "Equity Capex")
    by (intros C; apply column_in_In in C; discriminate C). rewrite !npv_row_dated by reflexivity.
  unfold before_npv. rewrite cash_flow_cell.
  now rewrite (dtc_index y H).
Qed.

Lemma u_operating_row (i : nat) :
  (i < 20)%nat ->
  let y := Int (year_of i) in
  let bal := opening_balance a (payment a) i in
  let interest := (num (-1) * bal * num (interest_rate a))%cell in
  let schedule :=
    num (if (year_of i <=? Z.of_nat (List.length (depreciation_schedule a)))%Z
         then nth (Z.to_nat (year_of i - 1)) (depreciation_schedule a) 0
         else 0) in
  let macrs :=
    (num (-1) * (schedule / num 100)
     * num (amount_that_is_depreciable a (renewable a)))%cell in
  cell (npv_row a (before_npv a f2)) y "Debt Outstanding, Yr Start" = bal /\
  cell (npv_row a (before_npv a f2)) y "Interest Expense" = interest /\
  cell (npv_row a (before_npv a f2)) y "Debt Service" = num (-1 * payment a) /\
  cell (npv_row a (before_npv a f2)) y "Principal Payment" = (num (-1 * payment a) - interest)%cell /\
  cell (npv_row a (before_npv a f2)) y "Depreciation Schedule" = schedule /\
  cell (npv_row a (before_npv a f2)) y "Depreciation (MACRS)" = macrs /\
  cell (npv_row a (before_npv a f2)) y "Taxable Income" = (cell (npv_row a (before_npv a f2)) y "EBITDA" + macrs + interest)%cell /\
  cell (npv_row a (before_npv a f2)) y "Interest Expense (Tax)" = interest.
Proof.
  intros Hi. cbn zeta.
  assert (B : cell (before_year a (payment a)
                      (amount_that_is_depreciable a (renewable a)) i f2)
                (Int (year_of i)) "Debt Outstanding, Yr Start"
              = opening_balance a (payment a) i).
  { apply before_year_balance; [exact debt_term | |].
    - now rewrite f2_balance.
    - intros j Hj. rewrite f2_balance. cbn [label_eqb].
      now replace (1 =? j)%Z with false by lia. }
  destruct (debt_tax_year_row a (payment a)
              (amount_that_is_depreciable a (renewable a))
              (before_year a (payment a)
                 (amount_that_is_depreciable a (renewable a)) i f2)
              (year_of i)) as (R1 & R2 & R3 & R4 & R5 & R6 & R7).
  cbn zeta in R1, R2, R3, R4, R5, R6, R7.
  rewrite B in R1, R3, R6, R7.
  rewrite before_year_other in R6
    by (intros C; apply column_in_In in C; discriminate C).
  rewrite (u_early_column (Int (year_of i)) "EBITDA")
    by (try reflexivity; intros C; apply column_in_In in C; discriminate C).
  rewrite !u_debt_column by (try reflexivity; cbn; tauto).
  rewrite debt_tax_capital_balance by assumption.
  rewrite !debt_tax_capital_row by (try assumption; discriminate).
  rewrite B, R1, R2, R3, R4, R5, R6, R7. repeat split; reflexivity.
Qed.

End TableRows.

Lemma f2_blank_column (sim : list SimRow) (a : Scenario) (f2 : DataFrame) (l : label) (c : string) :
  (forall l c, ~ In c earnings_columns ->
               cell f2 l c = cell (unit_rates a (frame1 sim a)) l c) ->
  In c debt_tax_columns -> c <> "Debt Outstanding, Yr Start" ->
  cell f2 l c = None.
Proof.
  intros Hf Hc N. cbn [debt_tax_columns In] in Hc.
  assert (G : forall cs, (forall x, In x cs -> x <> c) -> ~ In c cs).
  { intros cs H C. now apply (H c C). }
  repeat (destruct Hc as [Hc|Hc];
    [subst c;
     try congruence;
     rewrite Hf by (intros C; apply column_in_In in C; discriminate C);
     rewrite unit_rates_other by (intros C; apply column_in_In in C; discriminate C);
     unfold frame1;
     rewrite construction_frame_other
       by (intros C; apply column_in_In in C; discriminate C);
     apply frame0_blank; try discriminate;
     intros C; apply column_in_In in C; discriminate C|]).
  contradiction.
Qed.

Lemma f2_earnings_outside (sim : list SimRow) (a : Scenario) (f2 : DataFrame) (y : Z) :
  costs_and_earnings a (unit_rates a (frame1 sim a)) = Ok f2 ->
  (y <= 0)%Z ->
  cell f2 (Int y) "EBITDA" = None.
Proof.
  intros E Hy.
  assert (O : forall df, operating_years (Int y) && label_in (Int y) (index df) = false).
  { intros df. cbn [operating_years]. now replace (0 <? y)%Z with false by lia. }
  rewrite (costs_and_earnings_other_row a _ f2 (Int y) "EBITDA" E) by apply O.
  rewrite unit_rates_other_row by apply O.
  unfold frame1.
  rewrite construction_frame_other by (intros C; apply column_in_In in C; discriminate C).
  apply frame0_blank; try discriminate.
  intros C; apply column_in_In in C; discriminate C.
Qed.

(** ** Depreciation *)



(** ** The years after the debt term *)


